(** * Pose pipeline of the workout tracker: feature extraction, repetition
      state machines, validator/scorer and axis tracker

    Shallow embedding of [workout-body-correction/lib/workout-storage.ts]
    (the pose page with push-ups, squats and the hand tracker).  The
    embeddable variant of the page in the same file has the same push-up
    detector without the template branch of [scoreRep] and without the
    labels and the head baseline.

    Number model.  A JavaScript [number] that carries a measurement (a
    coordinate, a visibility, an angle, a time stamp in seconds) is read as a
    real number: arithmetic is exact, [Math.hypot] is the Euclidean norm and
    [Math.acos] the real arc cosine.  Rounding, overflow and signed zeros
    are outside the model.  The one place where the source can produce [NaN]
    from finite data (template scoring: [0/0] and reads past the end of an
    array) is modelled with the type [number] below.  [null]/[undefined] is
    [None].

    Around the detectors the file also embeds the callback of the webcam
    loop (the dispatch on the exercise mode and the debug buffer), the event
    listeners of the games in [components/games/dino-game.tsx], and the
    session history class [WorkoutStorage] of the same library file, without
    [getStats]; the drawing code is not modelled. *)

From Stdlib Require Import Reals Lra Lia List Bool Arith ZArith.
From Stdlib Require String.
Import ListNotations.

Open Scope R_scope.

(* ------------------------------------------------------------------ *)
(** ** JavaScript helpers *)
(* ------------------------------------------------------------------ *)

Module JS.

(** A [number] that may be [NaN]. *)
Inductive number : Type :=
| NaN
| Val (r : R).

(** [a >= b], [a <= b], [a < b], [a > b] and [a === b] on numbers. *)
Definition geb (a b : R) : bool := if Rle_dec b a then true else false.
Definition leb (a b : R) : bool := if Rle_dec a b then true else false.
Definition ltb (a b : R) : bool := if Rlt_dec a b then true else false.
Definition gtb (a b : R) : bool := if Rlt_dec b a then true else false.
Definition eqb (a b : R) : bool := if Req_dec_T a b then true else false.

(** [Math.max(a, b)], [Math.min(a, b)], [Math.abs], [Math.hypot]. *)
Definition Math_max (a b : R) : R := Rmax a b.
Definition Math_min (a b : R) : R := Rmin a b.
Definition Math_abs (a : R) : R := Rabs a.
Definition Math_hypot (a b : R) : R := sqrt (a * a + b * b).

(** [Math.max(...xs)] and [Math.min(...xs)] on the non-empty array
    [x :: xs].  Every spread call of the source is guarded by a length
    test, so the empty case ([-Infinity], [Infinity]) never runs. *)
Definition Math_max_of (x : R) (xs : list R) : R := fold_left Rmax xs x.
Definition Math_min_of (x : R) (xs : list R) : R := fold_left Rmin xs x.

(** [Math.max(lo, Math.min(hi, v))]. *)
Definition clamp (lo hi v : R) : R := Math_max lo (Math_min hi v).

(** The same clamp on a value that may be [NaN]: [Math.min] and
    [Math.max] return [NaN] as soon as an argument is [NaN]. *)
Definition clampN (lo hi : R) (v : number) : number :=
  match v with
  | NaN => NaN
  | Val r => Val (clamp lo hi r)
  end.

(** [arr.filter(v => v != null)] after a [map] to a nullable field. *)
Fixpoint nonNull {A : Type} (l : list (option A)) : list A :=
  match l with
  | [] => []
  | Some v :: tl => v :: nonNull tl
  | None :: tl => nonNull tl
  end.

(** [a ?? d]. *)
Definition orElse {A : Type} (a : option A) (d : A) : A :=
  match a with Some v => v | None => d end.

End JS.
Import JS.

(* ------------------------------------------------------------------ *)
(** ** Types *)
(* ------------------------------------------------------------------ *)

(** [Landmark].  The estimator may leave [visibility] out, which the source
    reads as [j.visibility ?? 0]. *)
Record Landmark : Type := mkLandmark {
  x : R;
  y : R;
  z : R;
  visibility : option R
}.

Record FrameFeatures : Type := mkFrameFeatures {
  t : R;
  elbowAngle : option R;
  hipAngle : option R;
  headY : option R;
  shoulderY : option R;
  hipY : option R
}.

Definition RepFeature : Type := FrameFeatures.

Record CompletedRep : Type := mkCompletedRep {
  features : list RepFeature;
  correctness : number
}.

Inductive PushupState : Type :=
| WAITING_FOR_START
| AT_TOP
| GOING_DOWN
| AT_BOTTOM
| GOING_UP.

(** [SquatState]; its constructors carry the prefix [SQ_] because the two
    enumerations share most of their names. *)
Inductive SquatState : Type :=
| SQ_WAITING_FOR_START
| SQ_STANDING
| SQ_GOING_DOWN
| SQ_AT_BOTTOM
| SQ_GOING_UP.

Record Stats : Type := mkStats {
  mean : list R;
  std : list R
}.

Record PushupTemplate : Type := mkPushupTemplate {
  phaseCount : nat;
  tplElbow : Stats;
  tplHip : Stats;
  tplHeadY : Stats
}.

Inductive Hand : Type := LEFT | RIGHT.

(** MediaPipe landmark indices. *)
Definition NOSE : nat := 0.
Definition L_SHOULDER : nat := 11.
Definition L_ELBOW : nat := 13.
Definition L_WRIST : nat := 15.
Definition L_HIP : nat := 23.
Definition L_KNEE : nat := 25.
Definition L_ANKLE : nat := 27.
Definition R_SHOULDER : nat := 12.
Definition R_ELBOW : nat := 14.
Definition R_WRIST : nat := 16.
Definition R_HIP : nat := 24.
Definition R_KNEE : nat := 26.
Definition R_ANKLE : nat := 28.

(** Thresholds. *)
Definition ELBOW_TOP_ANGLE : R := 160.
Definition ELBOW_BOTTOM_ANGLE : R := 90.
Definition MIN_ANGLE_DELTA : R := 40.
Definition HIP_STRAIGHT_ANGLE : R := 150.
Definition MIN_VIS_BODY : R := 4 / 10.
Definition HORIZONTAL_BODY_MAX_DELTA_Y : R := 3 / 10.
Definition START_TOP_STREAK : nat := 3.
Definition MIN_VALID_FRAMES_PER_REP : nat := 6.
Definition BOTTOM_ANGLE_MARGIN : R := 10.
Definition SQUAT_KNEE_TOP_ANGLE : R := 165.
Definition SQUAT_KNEE_BOTTOM_ANGLE : R := 100.
Definition SQUAT_MIN_ANGLE_DELTA : R := 35.
Definition SQUAT_MIN_VALID_FRAMES : nat := 6.

(* ------------------------------------------------------------------ *)
(** ** Small helpers and the feature extractor *)
(* ------------------------------------------------------------------ *)

(** Outcome of a call that may throw: reading a property of [undefined]
    raises a [TypeError]. *)
Inductive completion (A : Type) : Type :=
| Normal (a : A)
| TypeError.
Arguments Normal {A} a.
Arguments TypeError {A}.

(** [landmarks[i]]: [undefined] past the end of the array. *)
Definition at_index (landmarks : list Landmark) (i : nat) : option Landmark :=
  nth_error landmarks i.

Definition angleDegrees (a b c : Landmark) : option R :=
  let v1x := x a - x b in
  let v1y := y a - y b in
  let v2x := x c - x b in
  let v2y := y c - y b in
  let dot := v1x * v2x + v1y * v2y in
  let mag1 := Math_hypot v1x v1y in
  let mag2 := Math_hypot v2x v2y in
  if eqb mag1 0 || eqb mag2 0 then None
  else
    let cos := dot / (mag1 * mag2) in
    let cos := Math_max (-1) (Math_min 1 cos) in
    Some (acos cos * 180 / PI).

Definition avg (a b : option R) : option R :=
  match a, b with
  | None, None => None
  | None, Some vb => Some vb
  | Some va, None => Some va
  | Some va, Some vb => Some ((va + vb) / 2)
  end.

(** The loop over [keyJoints]: sum of the visibilities and number of the
    joints that are present. *)
Fixpoint visLoop (keyJoints : list (option Landmark)) (visSum : R) (visCount : nat)
  : R * nat :=
  match keyJoints with
  | [] => (visSum, visCount)
  | Some j :: rest => visLoop rest (visSum + orElse (visibility j) 0) (S visCount)
  | None :: rest => visLoop rest visSum visCount
  end.

Definition avgVisOf (keyJoints : list (option Landmark)) : R :=
  let '(visSum, visCount) := visLoop keyJoints 0 O in
  if (0 <? visCount)%nat then visSum / INR visCount else 0.

(** [angleDegrees] called on joints that may be [undefined]. *)
Definition angleDegrees_at (a b c : option Landmark) : completion (option R) :=
  match a, b, c with
  | Some a, Some b, Some c => Normal (angleDegrees a b c)
  | _, _, _ => TypeError
  end.

Definition pushupKeyJoints (landmarks : list Landmark) : list (option Landmark) :=
  [ at_index landmarks L_SHOULDER; at_index landmarks L_ELBOW;
    at_index landmarks L_WRIST; at_index landmarks R_SHOULDER;
    at_index landmarks R_ELBOW; at_index landmarks R_WRIST;
    at_index landmarks L_HIP; at_index landmarks L_ANKLE;
    at_index landmarks R_HIP; at_index landmarks R_ANKLE ].

Definition extractFrameFeatures (landmarks : list Landmark) (t : R)
  : completion FrameFeatures :=
  let lSh := at_index landmarks L_SHOULDER in
  let lEl := at_index landmarks L_ELBOW in
  let lWr := at_index landmarks L_WRIST in
  let rSh := at_index landmarks R_SHOULDER in
  let rEl := at_index landmarks R_ELBOW in
  let rWr := at_index landmarks R_WRIST in
  let lHip := at_index landmarks L_HIP in
  let lAnk := at_index landmarks L_ANKLE in
  let rHip := at_index landmarks R_HIP in
  let rAnk := at_index landmarks R_ANKLE in
  let nose := at_index landmarks NOSE in
  let avgVis := avgVisOf (pushupKeyJoints landmarks) in
  let jointsVisibleEnough := geb avgVis MIN_VIS_BODY in
  let shoulderY := avg (option_map y lSh) (option_map y rSh) in
  let hipY := avg (option_map y lHip) (option_map y rHip) in
  let headY := option_map y nose in
  if negb jointsVisibleEnough then
    Normal (mkFrameFeatures t None None headY shoulderY hipY)
  else
    match angleDegrees_at lSh lEl lWr with
    | TypeError => TypeError
    | Normal leftElbow =>
      match angleDegrees_at rSh rEl rWr with
      | TypeError => TypeError
      | Normal rightElbow =>
        let elbowAngle := avg leftElbow rightElbow in
        match angleDegrees_at lSh lHip lAnk with
        | TypeError => TypeError
        | Normal leftHip =>
          match angleDegrees_at rSh rHip rAnk with
          | TypeError => TypeError
          | Normal rightHip =>
            let hipAngle := avg leftHip rightHip in
            Normal (mkFrameFeatures t elbowAngle hipAngle headY shoulderY hipY)
          end
        end
      end
    end.

(* ------------------------------------------------------------------ *)
(** ** Resampling, validation and scoring (push-ups) *)
(* ------------------------------------------------------------------ *)

Record Phase : Type := mkPhase {
  elbow : R;
  hip : R
}.

(** [i / (phaseCount - 1)].  The divisor is zero only for [phaseCount = 1],
    where the only index is [0]: the quotient is [0/0]. *)
Definition targetPhaseOf (i phaseCount : nat) : number :=
  if (phaseCount - 1 =? 0)%nat then NaN
  else Val (INR i / INR (phaseCount - 1)).

(** The nearest-neighbour scan over [features], started at [features[0]].
    Against a [NaN] target every [dt < bestDt] is false. *)
Definition nearest (targetT : number) (f0 : RepFeature) (fs : list RepFeature)
  : RepFeature :=
  match targetT with
  | NaN => f0
  | Val tgt =>
    fst (fold_left
           (fun (acc : RepFeature * R) (f : RepFeature) =>
              let dt := Math_abs (t f - tgt) in
              if ltb dt (snd acc) then (f, dt) else acc)
           fs (f0, Math_abs (t f0 - tgt)))
  end.

Definition resampleRep (features : list RepFeature) (phaseCount : nat)
  : list Phase :=
  match features with
  | [] => []
  | f0 :: _ =>
    let t0 := t f0 in
    let t1 := t (last features f0) in
    let duration := if eqb (t1 - t0) 0 then 1 else t1 - t0 in
    map (fun i =>
           let targetT :=
             match targetPhaseOf i phaseCount with
             | NaN => NaN
             | Val targetPhase => Val (t0 + targetPhase * duration)
             end in
           let best := nearest targetT f0 features in
           mkPhase (orElse (elbowAngle best) 0) (orElse (hipAngle best) 0))
        (seq 0 phaseCount)
  end.

Definition elbowAngles (features : list RepFeature) : list R :=
  nonNull (map elbowAngle features).

Definition hipAngles (features : list RepFeature) : list R :=
  nonNull (map hipAngle features).

Definition repIsValid (features : list RepFeature) : bool :=
  match elbowAngles features with
  | [] => false
  | a :: rest =>
    if (length (a :: rest) <? MIN_VALID_FRAMES_PER_REP)%nat then false
    else
      let minElbow := Math_min_of a rest in
      let maxElbow := Math_max_of a rest in
      let elbowRange := maxElbow - minElbow in
      if ltb elbowRange MIN_ANGLE_DELTA then false
      else
        let reachedBottom :=
          leb minElbow (ELBOW_BOTTOM_ANGLE + BOTTOM_ANGLE_MARGIN) in
        if negb reachedBottom then false else true
  end.

(** [Math.abs(v - m) / s] where [m = mean[i]] is [undefined] past the end
    of the array (the difference is then [NaN]). *)
Definition zScore (v : R) (m : option R) (s : R) : number :=
  match m with
  | None => NaN
  | Some m => Val (Math_abs (v - m) / s)
  end.

(** [std[i] || 1]: [undefined] and [0] are falsy. *)
Definition stdOr1 (std : list R) (i : nat) : R :=
  match nth_error std i with
  | None => 1
  | Some s => if eqb s 0 then 1 else s
  end.

Definition addN (a b : number) : number :=
  match a, b with
  | Val a, Val b => Val (a + b)
  | _, _ => NaN
  end.

(** The body of the scoring loop, for phase [i], on [(totalZ, count)].
    [repPhases[i]] is in range: the loop runs only when
    [repPhases.length === phaseCount]. *)
Definition templateStep (tpl : PushupTemplate) (repPhases : list Phase)
  (acc : number * nat) (i : nat) : number * nat :=
  let rep := nth i repPhases (mkPhase 0 0) in
  let mE := nth_error (mean (tplElbow tpl)) i in
  let sE := stdOr1 (std (tplElbow tpl)) i in
  let zE := zScore (elbow rep) mE sE in
  let mH := nth_error (mean (tplHip tpl)) i in
  let sH := stdOr1 (std (tplHip tpl)) i in
  let zH := zScore (hip rep) mH sH in
  (addN (fst acc) (addN zE zH), (snd acc + 2)%nat).

(** The scoring loop over the phases: [(totalZ, count)]. *)
Definition templateLoop (tpl : PushupTemplate) (repPhases : list Phase)
  : number * nat :=
  fold_left (templateStep tpl repPhases) (seq 0 (phaseCount tpl)) (Val 0, O).

(** [totalZ / count].  [count] is zero only when the loop did not run, and
    then [totalZ] is still [0]: the quotient is [0/0]. *)
Definition avgZOf (totalZ : number) (count : nat) : number :=
  match totalZ with
  | NaN => NaN
  | Val tz => if (count =? 0)%nat then NaN else Val (tz / INR count)
  end.

Definition scoreTemplate (tpl : PushupTemplate) (features : list RepFeature)
  : number :=
  let repPhases := resampleRep features (phaseCount tpl) in
  if negb (length repPhases =? phaseCount tpl)%nat then Val 0
  else
    let '(totalZ, count) := templateLoop tpl repPhases in
    let avgZ := avgZOf totalZ count in
    let raw := match avgZ with NaN => NaN | Val a => Val (100 - 10 * a) end in
    clampN 0 100 raw.

Definition scoreRules (features : list RepFeature) : R :=
  match elbowAngles features, hipAngles features with
  | a :: rest, h :: hrest =>
    let minElbow := Math_min_of a rest in
    let maxElbow := Math_max_of a rest in
    let elbowRange := maxElbow - minElbow in
    let maxHip := Math_max_of h hrest in
    let rangeScore := Math_max 0 (Math_min 1 (elbowRange / 80)) in
    let rangePoints := rangeScore * 70 in
    let hipScore := Math_max 0 (Math_min 1 ((maxHip - 140) / 40)) in
    let hipPoints := hipScore * 30 in
    Math_max 0 (Math_min 100 (rangePoints + hipPoints))
  | _, _ => 0
  end.

(** [scoreRep]: the template branch when a template is loaded, the
    rule-based one otherwise. *)
Definition scoreRep (pushupTemplate : option PushupTemplate)
  (features : list RepFeature) : number :=
  match pushupTemplate with
  | Some tpl => scoreTemplate tpl features
  | None => Val (scoreRules features)
  end.

(* ------------------------------------------------------------------ *)
(** ** State of the page component and emitted events *)
(* ------------------------------------------------------------------ *)

(** [currentStateLabel]: the string ["Waiting"] at first, then the name of a
    push-up state. *)
Inductive StateLabel : Type :=
| Waiting
| LabelOf (s : PushupState).

(** The refs and the UI state of [PoseLandmarkerPage] that the detectors
    read and write. *)
Record PageState : Type := mkPageState {
  pushupState : PushupState;
  lastState : PushupState;
  currentRep : list RepFeature;
  completedReps : list CompletedRep;
  baselineHeadY : option R;
  topStreak : nat;
  squatState : SquatState;
  squatCurrentRepAngles : list R;
  squatTopStreak : nat;
  lastRepScore : option number;
  currentStateLabel : StateLabel;
  startingPositionDetected : bool;
  uiRepCount : nat
}.

Definition initialPage : PageState :=
  mkPageState WAITING_FOR_START WAITING_FOR_START [] [] None O
              SQ_WAITING_FOR_START [] O None Waiting false O.

Definition set_pushupState (v : PushupState) (s : PageState) : PageState :=
  mkPageState v (lastState s) (currentRep s) (completedReps s)
    (baselineHeadY s) (topStreak s) (squatState s) (squatCurrentRepAngles s)
    (squatTopStreak s) (lastRepScore s) (currentStateLabel s)
    (startingPositionDetected s) (uiRepCount s).

Definition set_lastState (v : PushupState) (s : PageState) : PageState :=
  mkPageState (pushupState s) v (currentRep s) (completedReps s)
    (baselineHeadY s) (topStreak s) (squatState s) (squatCurrentRepAngles s)
    (squatTopStreak s) (lastRepScore s) (currentStateLabel s)
    (startingPositionDetected s) (uiRepCount s).

Definition set_currentRep (v : list RepFeature) (s : PageState) : PageState :=
  mkPageState (pushupState s) (lastState s) v (completedReps s)
    (baselineHeadY s) (topStreak s) (squatState s) (squatCurrentRepAngles s)
    (squatTopStreak s) (lastRepScore s) (currentStateLabel s)
    (startingPositionDetected s) (uiRepCount s).

Definition set_completedReps (v : list CompletedRep) (s : PageState) : PageState :=
  mkPageState (pushupState s) (lastState s) (currentRep s) v
    (baselineHeadY s) (topStreak s) (squatState s) (squatCurrentRepAngles s)
    (squatTopStreak s) (lastRepScore s) (currentStateLabel s)
    (startingPositionDetected s) (uiRepCount s).

Definition set_baselineHeadY (v : option R) (s : PageState) : PageState :=
  mkPageState (pushupState s) (lastState s) (currentRep s) (completedReps s)
    v (topStreak s) (squatState s) (squatCurrentRepAngles s)
    (squatTopStreak s) (lastRepScore s) (currentStateLabel s)
    (startingPositionDetected s) (uiRepCount s).

Definition set_topStreak (v : nat) (s : PageState) : PageState :=
  mkPageState (pushupState s) (lastState s) (currentRep s) (completedReps s)
    (baselineHeadY s) v (squatState s) (squatCurrentRepAngles s)
    (squatTopStreak s) (lastRepScore s) (currentStateLabel s)
    (startingPositionDetected s) (uiRepCount s).

Definition set_squatState (v : SquatState) (s : PageState) : PageState :=
  mkPageState (pushupState s) (lastState s) (currentRep s) (completedReps s)
    (baselineHeadY s) (topStreak s) v (squatCurrentRepAngles s)
    (squatTopStreak s) (lastRepScore s) (currentStateLabel s)
    (startingPositionDetected s) (uiRepCount s).

Definition set_squatCurrentRepAngles (v : list R) (s : PageState) : PageState :=
  mkPageState (pushupState s) (lastState s) (currentRep s) (completedReps s)
    (baselineHeadY s) (topStreak s) (squatState s) v
    (squatTopStreak s) (lastRepScore s) (currentStateLabel s)
    (startingPositionDetected s) (uiRepCount s).

Definition set_squatTopStreak (v : nat) (s : PageState) : PageState :=
  mkPageState (pushupState s) (lastState s) (currentRep s) (completedReps s)
    (baselineHeadY s) (topStreak s) (squatState s) (squatCurrentRepAngles s)
    v (lastRepScore s) (currentStateLabel s)
    (startingPositionDetected s) (uiRepCount s).

Definition set_lastRepScore (v : option number) (s : PageState) : PageState :=
  mkPageState (pushupState s) (lastState s) (currentRep s) (completedReps s)
    (baselineHeadY s) (topStreak s) (squatState s) (squatCurrentRepAngles s)
    (squatTopStreak s) v (currentStateLabel s)
    (startingPositionDetected s) (uiRepCount s).

Definition set_currentStateLabel (v : StateLabel) (s : PageState) : PageState :=
  mkPageState (pushupState s) (lastState s) (currentRep s) (completedReps s)
    (baselineHeadY s) (topStreak s) (squatState s) (squatCurrentRepAngles s)
    (squatTopStreak s) (lastRepScore s) v
    (startingPositionDetected s) (uiRepCount s).

Definition set_startingPositionDetected (v : bool) (s : PageState) : PageState :=
  mkPageState (pushupState s) (lastState s) (currentRep s) (completedReps s)
    (baselineHeadY s) (topStreak s) (squatState s) (squatCurrentRepAngles s)
    (squatTopStreak s) (lastRepScore s) (currentStateLabel s)
    v (uiRepCount s).

Definition set_uiRepCount (v : nat) (s : PageState) : PageState :=
  mkPageState (pushupState s) (lastState s) (currentRep s) (completedReps s)
    (baselineHeadY s) (topStreak s) (squatState s) (squatCurrentRepAngles s)
    (squatTopStreak s) (lastRepScore s) (currentStateLabel s)
    (startingPositionDetected s) v.

(** The [CustomEvent]s dispatched on [window], with their [detail]. *)
Inductive Event : Type :=
| pushupCompleted (score : number) (repCount : nat) (timestamp : Z)
| squatCompleted (repCount : nat) (timestamp : Z)
| handYUpdate (hand : Hand) (yNorm : R) (timestamp : Z).

(** What a frame callback sees of its surroundings: whether [window] is
    defined, and the reading of [Date.now()] in milliseconds. *)
Record Env : Type := mkEnv {
  hasWindow : bool;
  dateNow : Z
}.

(** [if (typeof window !== "undefined") window.dispatchEvent(e)]. *)
Definition dispatch (env : Env) (e : Event) : list Event :=
  if hasWindow env then [e] else [].

Definition PushupState_eqb (a b : PushupState) : bool :=
  match a, b with
  | WAITING_FOR_START, WAITING_FOR_START
  | AT_TOP, AT_TOP
  | GOING_DOWN, GOING_DOWN
  | AT_BOTTOM, AT_BOTTOM
  | GOING_UP, GOING_UP => true
  | _, _ => false
  end.

Definition SquatState_eqb (a b : SquatState) : bool :=
  match a, b with
  | SQ_WAITING_FOR_START, SQ_WAITING_FOR_START
  | SQ_STANDING, SQ_STANDING
  | SQ_GOING_DOWN, SQ_GOING_DOWN
  | SQ_AT_BOTTOM, SQ_AT_BOTTOM
  | SQ_GOING_UP, SQ_GOING_UP => true
  | _, _ => false
  end.

(* ------------------------------------------------------------------ *)
(** ** Push-up state machine (called every frame) *)
(* ------------------------------------------------------------------ *)

Definition setStateIfChanged (newState : PushupState) (s : PageState) : PageState :=
  if negb (PushupState_eqb newState (pushupState s)) then
    set_currentStateLabel (LabelOf newState)
      (set_lastState newState (set_pushupState newState s))
  else s.

(** [if (baselineHeadYRef.current == null && headY != null)
      baselineHeadYRef.current = headY]. *)
Definition seedBaseline (headY : option R) (s : PageState) : PageState :=
  match baselineHeadY s, headY with
  | None, Some h => set_baselineHeadY (Some h) s
  | _, _ => s
  end.

(** The closing of a repetition in [GOING_UP]: validate the buffer, and
    when it is accepted score it, log it and fire the event. *)
Definition closePushupRep (pushupTemplate : option PushupTemplate) (env : Env)
  (s : PageState) : PageState * list Event :=
  let repFeatures := currentRep s in
  if repIsValid repFeatures then
    let score := scoreRep pushupTemplate repFeatures in
    let s := set_completedReps
               (completedReps s ++ [mkCompletedRep repFeatures score]) s in
    let repCount := length (completedReps s) in
    let s := set_uiRepCount repCount s in
    let s := set_lastRepScore (Some score) s in
    (s, dispatch env (pushupCompleted score repCount (dateNow env)))
  else (s, []).

Definition updatePushupState (pushupTemplate : option PushupTemplate)
  (env : Env) (s : PageState) (features : FrameFeatures)
  : PageState * list Event :=
  let state := pushupState s in
  match elbowAngle features, hipAngle features with
  | Some elbowA, Some hipA =>
    match shoulderY features, hipY features with
    | Some shY, Some hpY =>
      let bodyDeltaY := Math_abs (shY - hpY) in
      let bodyIsHorizontal := leb bodyDeltaY HORIZONTAL_BODY_MAX_DELTA_Y in
      if negb bodyIsHorizontal then
        if negb (PushupState_eqb state WAITING_FOR_START) then
          let s := set_pushupState WAITING_FOR_START s in
          let s := set_currentStateLabel (LabelOf WAITING_FOR_START) s in
          let s := set_startingPositionDetected false s in
          let s := set_currentRep [] s in
          let s := set_topStreak O s in
          (s, [])
        else (s, [])
      else
        let atTop :=
          geb elbowA ELBOW_TOP_ANGLE && geb hipA HIP_STRAIGHT_ANGLE in
        let atBottom := leb elbowA ELBOW_BOTTOM_ANGLE in
        match state with
        | WAITING_FOR_START =>
          if atTop then
            let s := set_topStreak (topStreak s + 1) s in
            if (START_TOP_STREAK <=? topStreak s)%nat then
              let s := setStateIfChanged AT_TOP s in
              let s := set_currentRep [features] s in
              let s := set_baselineHeadY (headY features) s in
              let s := set_startingPositionDetected true s in
              (s, [])
            else (s, [])
          else (set_topStreak O s, [])
        | AT_TOP =>
          let s := set_currentRep (currentRep s ++ [features]) s in
          if negb atTop && ltb elbowA (ELBOW_TOP_ANGLE - 5) then
            (setStateIfChanged GOING_DOWN s, [])
          else (s, [])
        | GOING_DOWN =>
          let s := set_currentRep (currentRep s ++ [features]) s in
          if atBottom then (setStateIfChanged AT_BOTTOM s, [])
          else if atTop then
            let s := setStateIfChanged AT_TOP s in
            (set_currentRep [features] s, [])
          else (s, [])
        | AT_BOTTOM =>
          let s := set_currentRep (currentRep s ++ [features]) s in
          if negb atBottom && gtb elbowA (ELBOW_BOTTOM_ANGLE + 5) then
            (setStateIfChanged GOING_UP s, [])
          else (s, [])
        | GOING_UP =>
          let s := set_currentRep (currentRep s ++ [features]) s in
          if atTop then
            let '(s, events) := closePushupRep pushupTemplate env s in
            let s := setStateIfChanged AT_TOP s in
            let s := set_currentRep [features] s in
            let s := seedBaseline (headY features) s in
            (s, events)
          else (s, [])
        end
    | _, _ => (s, [])
    end
  | _, _ =>
    if PushupState_eqb state WAITING_FOR_START then (set_topStreak O s, [])
    else (s, [])
  end.

(** The frame loop in push-up mode: the callback runs once per frame, in
    arrival order; the events of all frames are collected in order. *)
Fixpoint runPushups (pushupTemplate : option PushupTemplate) (s : PageState)
  (frames : list (Env * FrameFeatures)) : PageState * list Event :=
  match frames with
  | [] => (s, [])
  | (env, f) :: rest =>
    let '(s1, ev1) := updatePushupState pushupTemplate env s f in
    let '(s2, ev2) := runPushups pushupTemplate s1 rest in
    (s2, ev1 ++ ev2)
  end.

(* ------------------------------------------------------------------ *)
(** ** Squat detection *)
(* ------------------------------------------------------------------ *)

Definition squatKeyJoints (landmarks : list Landmark) : list (option Landmark) :=
  [ at_index landmarks L_HIP; at_index landmarks R_HIP;
    at_index landmarks L_KNEE; at_index landmarks R_KNEE;
    at_index landmarks L_ANKLE; at_index landmarks R_ANKLE ].

(** [h && k && a ? angleDegrees(h, k, a) : null]. *)
Definition kneeAngleAt (h k a : option Landmark) : option R :=
  match h, k, a with
  | Some h, Some k, Some a => angleDegrees h k a
  | _, _, _ => None
  end.

(** The [kneeAngle] of a frame: both sides averaged, or the side that
    resolved. *)
Definition squatKneeAngle (landmarks : list Landmark) : option R :=
  let leftKneeAngle :=
    kneeAngleAt (at_index landmarks L_HIP) (at_index landmarks L_KNEE)
                (at_index landmarks L_ANKLE) in
  let rightKneeAngle :=
    kneeAngleAt (at_index landmarks R_HIP) (at_index landmarks R_KNEE)
                (at_index landmarks R_ANKLE) in
  match leftKneeAngle, rightKneeAngle with
  | Some l, Some r => Some ((l + r) / 2)
  | Some l, None => Some l
  | None, Some r => Some r
  | None, None => None
  end.

Definition setSquatStateIfChanged (newState : SquatState) (s : PageState)
  : PageState :=
  if negb (SquatState_eqb newState (squatState s)) then set_squatState newState s
  else s.

(** The closing of a squat cycle in [GOING_UP], on the copy [angles] of the
    buffer.  The length test excludes the empty array. *)
Definition closeSquatRep (env : Env) (s : PageState) : PageState * list Event :=
  let angles := squatCurrentRepAngles s in
  if (SQUAT_MIN_VALID_FRAMES <=? length angles)%nat then
    match angles with
    | [] => (s, [])
    | a :: rest =>
      let minKnee := Math_min_of a rest in
      let maxKnee := Math_max_of a rest in
      let range := maxKnee - minKnee in
      let reachedBottom :=
        leb minKnee (SQUAT_KNEE_BOTTOM_ANGLE + 5)
        && geb range SQUAT_MIN_ANGLE_DELTA in
      if reachedBottom then
        let s := set_completedReps
                   (completedReps s ++ [mkCompletedRep [] (Val 100)]) s in
        let repCount := length (completedReps s) in
        let s := set_uiRepCount repCount s in
        let s := set_lastRepScore (Some (Val 100)) s in
        (s, dispatch env (squatCompleted repCount (dateNow env)))
      else (s, [])
    end
  else (s, []).

Definition updateSquatState (env : Env) (s : PageState)
  (landmarks : list Landmark) (t : R) : PageState * list Event :=
  let state := squatState s in
  let avgVis := avgVisOf (squatKeyJoints landmarks) in
  if ltb avgVis MIN_VIS_BODY then
    if SquatState_eqb state SQ_WAITING_FOR_START
    then (set_squatTopStreak O s, [])
    else (s, [])
  else
    match squatKneeAngle landmarks with
    | None => (s, [])
    | Some kneeAngle =>
      let atTop := geb kneeAngle SQUAT_KNEE_TOP_ANGLE in
      let atBottom := leb kneeAngle SQUAT_KNEE_BOTTOM_ANGLE in
      match state with
      | SQ_WAITING_FOR_START =>
        if atTop then
          let s := set_squatTopStreak (squatTopStreak s + 1) s in
          if (START_TOP_STREAK <=? squatTopStreak s)%nat then
            let s := setSquatStateIfChanged SQ_STANDING s in
            (set_squatCurrentRepAngles [kneeAngle] s, [])
          else (s, [])
        else (set_squatTopStreak O s, [])
      | SQ_STANDING =>
        let s := set_squatCurrentRepAngles
                   (squatCurrentRepAngles s ++ [kneeAngle]) s in
        if negb atTop && ltb kneeAngle (SQUAT_KNEE_TOP_ANGLE - 5) then
          (setSquatStateIfChanged SQ_GOING_DOWN s, [])
        else (s, [])
      | SQ_GOING_DOWN =>
        let s := set_squatCurrentRepAngles
                   (squatCurrentRepAngles s ++ [kneeAngle]) s in
        if atBottom then (setSquatStateIfChanged SQ_AT_BOTTOM s, [])
        else if atTop then
          let s := setSquatStateIfChanged SQ_STANDING s in
          (set_squatCurrentRepAngles [kneeAngle] s, [])
        else (s, [])
      | SQ_AT_BOTTOM =>
        let s := set_squatCurrentRepAngles
                   (squatCurrentRepAngles s ++ [kneeAngle]) s in
        if negb atBottom && gtb kneeAngle (SQUAT_KNEE_BOTTOM_ANGLE + 5) then
          (setSquatStateIfChanged SQ_GOING_UP s, [])
        else (s, [])
      | SQ_GOING_UP =>
        let s := set_squatCurrentRepAngles
                   (squatCurrentRepAngles s ++ [kneeAngle]) s in
        if atTop then
          let '(s, events) := closeSquatRep env s in
          let s := setSquatStateIfChanged SQ_STANDING s in
          (set_squatCurrentRepAngles [kneeAngle] s, events)
        else (s, [])
      end
    end.

(* ------------------------------------------------------------------ *)
(** ** Hand Y tracker *)
(* ------------------------------------------------------------------ *)

(** [1 - Math.max(0, Math.min(1, wrist.y))]. *)
Definition handYNorm (wristY : R) : R :=
  let yClamped := Math_max 0 (Math_min 1 wristY) in
  1 - yClamped.

(** [hand === "LEFT" ? L_WRIST : R_WRIST]. *)
Definition wristIndexOf (hand : Hand) : nat :=
  match hand with LEFT => L_WRIST | RIGHT => R_WRIST end.

Definition trackHandY (env : Env) (landmarks : list Landmark) (hand : Hand)
  : list Event :=
  let wristIndex := wristIndexOf hand in
  match at_index landmarks wristIndex with
  | None => []
  | Some wrist =>
    let vis := orElse (visibility wrist) 0 in
    if ltb vis MIN_VIS_BODY then []
    else dispatch env (handYUpdate hand (handYNorm (y wrist)) (dateNow env))
  end.

(* ------------------------------------------------------------------ *)
(** ** The frame callback of the webcam loop *)
(* ------------------------------------------------------------------ *)

Inductive ExerciseType : Type :=
| PUSHUPS
| SQUATS
| RIGHT_HAND_Y
| LEFT_HAND_Y.

Record DebugFrame : Type := mkDebugFrame {
  debug_t : R;
  debug_state : PushupState;
  debug_features : FrameFeatures;
  debug_landmarks : list Landmark
}.

(** The page state together with [debugFramesRef]. *)
Record Runtime : Type := mkRuntime {
  page : PageState;
  debugFrames : list DebugFrame
}.

Definition initialRuntime : Runtime := mkRuntime initialPage [].

(** [buf.push(debugFrame); if (buf.length > 50) buf.shift()]. *)
Definition recordDebugFrame (buf : list DebugFrame) (debugFrame : DebugFrame)
  : list DebugFrame :=
  let buf := buf ++ [debugFrame] in
  if (50 <? length buf)%nat then tl buf else buf.

(** The callback that [predictWebcam] hands to [detectForVideo], without
    the drawing: [poses] is [result.landmarks], [currentTime] the video
    time ([video.currentTime || 0] is the same number).  A [TypeError] of
    the extractor leaves the callback. *)
Definition onResults (excType : ExerciseType)
  (pushupTemplate : option PushupTemplate) (env : Env) (rt : Runtime)
  (poses : list (list Landmark)) (currentTime : R)
  : completion (Runtime * list Event) :=
  match poses with
  | [] => Normal (rt, [])
  | firstPose :: _ =>
    let t := currentTime in
    match excType with
    | PUSHUPS =>
      match extractFrameFeatures firstPose t with
      | TypeError => TypeError
      | Normal features =>
        let '(pg, events) :=
          updatePushupState pushupTemplate env (page rt) features in
        let debugFrame := mkDebugFrame t (pushupState pg) features firstPose in
        Normal (mkRuntime pg (recordDebugFrame (debugFrames rt) debugFrame),
                events)
      end
    | SQUATS =>
      let '(pg, events) := updateSquatState env (page rt) firstPose t in
      Normal (mkRuntime pg (debugFrames rt), events)
    | RIGHT_HAND_Y => Normal (rt, trackHandY env firstPose RIGHT)
    | LEFT_HAND_Y => Normal (rt, trackHandY env firstPose LEFT)
    end
  end.

(** One result of the pose landmarker, as the callback receives it. *)
Record PoseResult : Type := mkPoseResult {
  result_env : Env;
  result_landmarks : list (list Landmark);
  result_time : R
}.

(** The loop over the results, in arrival order.  An exception of the
    callback leaves [predictWebcam], which then does not schedule the next
    frame: the loop ends there. *)
Fixpoint runResults (excType : ExerciseType)
  (pushupTemplate : option PushupTemplate) (rt : Runtime)
  (results : list PoseResult) : completion (Runtime * list Event) :=
  match results with
  | [] => Normal (rt, [])
  | r :: rest =>
    match onResults excType pushupTemplate (result_env r) rt
            (result_landmarks r) (result_time r) with
    | TypeError => TypeError
    | Normal (rt1, ev1) =>
      match runResults excType pushupTemplate rt1 rest with
      | TypeError => TypeError
      | Normal (rt2, ev2) => Normal (rt2, ev1 ++ ev2)
      end
    end
  end.


(* ------------------------------------------------------------------ *)
(** ** The listeners of the games ([components/games/dino-game.tsx]) *)
(* ------------------------------------------------------------------ *)

(** The part of the dino game that its event listeners read and write:
    [gameStateRef.current.dino.velocityY], [.dino.jumping], [.jumpForce],
    [.isGameOver], and the [pushupCount] shown as "Reps". *)
Record DinoGame : Type := mkDinoGame {
  velocityY : R;
  jumping : bool;
  jumpForce : R;
  isGameOver : bool;
  pushupCount : nat
}.

(** [handlePushupCompleted] and [handleSquatCompleted] (the same body), on
    the [repCount] of the event's detail. *)
Definition handleRepCompleted (g : DinoGame) (repCount : nat) : DinoGame :=
  let g := mkDinoGame (velocityY g) (jumping g) (jumpForce g) (isGameOver g)
                      repCount in
  if negb (jumping g) && negb (isGameOver g) then
    mkDinoGame (jumpForce g) true (jumpForce g) (isGameOver g) (pushupCount g)
  else g.

(** [window.dispatchEvent] towards the dino game: it listens to
    [pushupCompleted] and [squatCompleted]. *)
Definition dinoListen (g : DinoGame) (ev : Event) : DinoGame :=
  match ev with
  | pushupCompleted _ repCount _ => handleRepCompleted g repCount
  | squatCompleted repCount _ => handleRepCompleted g repCount
  | handYUpdate _ _ _ => g
  end.

(** [handleHandYUpdate] of the breakout game: the new [paddlePosition]. *)
Definition handleHandYUpdate (yDetail : R) : R :=
  let invertedY := 1 - yDetail in
  Math_max 0 (Math_min 1 invertedY).

(** [window.dispatchEvent] towards the breakout game, on its
    [paddlePosition]: it listens to [handYUpdate]. *)
Definition breakoutListen (paddlePosition : R) (ev : Event) : R :=
  match ev with
  | handYUpdate _ yDetail _ => handleHandYUpdate yDetail
  | _ => paddlePosition
  end.

(* ------------------------------------------------------------------ *)
(** ** The session history ([WorkoutStorage]) *)
(* ------------------------------------------------------------------ *)

Module WorkoutStorage.

Record FeedbackSummary : Type := mkFeedbackSummary {
  good : R;
  warning : R;
  error : R
}.

(** [WorkoutSession]; [date] is the time value of the [Date], in
    milliseconds. *)
Record WorkoutSession : Type := mkWorkoutSession {
  id : String.string;
  exerciseId : String.string;
  exerciseName : String.string;
  date : Z;
  duration : R;
  reps : R;
  avgFormScore : R;
  feedbackSummary : FeedbackSummary
}.

(** [Omit<WorkoutSession, 'id' | 'date'>]. *)
Record SessionInput : Type := mkSessionInput {
  in_exerciseId : String.string;
  in_exerciseName : String.string;
  in_duration : R;
  in_reps : R;
  in_avgFormScore : R;
  in_feedbackSummary : FeedbackSummary
}.

(** What [localStorage] holds under [STORAGE_KEY]: nothing; a string that
    does not read back as a history (empty, not JSON, or not an array:
    [getSessions] returns [[]] at [!data] or from its [catch]); or the JSON
    of a list of sessions, which [JSON.parse] and the conversion of the
    dates read back as that list (the key is written by this class only). *)
Inductive StoredItem : Type :=
| NoItem
| Unreadable
| History (sessions : list WorkoutSession).

(** [window] is the flag [typeof window !== 'undefined']. *)
Definition getSessions (window : bool) (store : StoredItem)
  : list WorkoutSession :=
  if negb window then []
  else
    match store with
    | NoItem => []
    | Unreadable => []
    | History sessions => sessions
    end.

(** [uuid] is the value of [crypto.randomUUID()], [now] that of
    [new Date()]. *)
Definition saveSession (window : bool) (store : StoredItem)
  (session : SessionInput) (uuid : String.string) (now : Z) : StoredItem :=
  let sessions := getSessions window store in
  let newSession :=
    mkWorkoutSession uuid (in_exerciseId session) (in_exerciseName session)
      now (in_duration session) (in_reps session) (in_avgFormScore session)
      (in_feedbackSummary session) in
  let sessions := newSession :: sessions in
  let trimmed := firstn 50 sessions in
  if window then History trimmed else store.

Definition getSessionsByExercise (window : bool) (store : StoredItem)
  (exerciseId' : String.string) : list WorkoutSession :=
  filter (fun s => String.eqb (exerciseId s) exerciseId')
         (getSessions window store).

Definition deleteSession (window : bool) (store : StoredItem)
  (id' : String.string) : StoredItem :=
  let sessions := getSessions window store in
  let filtered := filter (fun s => negb (String.eqb (id s) id')) sessions in
  if window then History filtered else store.

Definition clearAll (window : bool) (store : StoredItem) : StoredItem :=
  if window then NoItem else store.

(** The calls that write the history. *)
Inductive Call : Type :=
| SaveSession (session : SessionInput) (uuid : String.string) (now : Z)
| DeleteSession (id' : String.string)
| ClearAll.

Definition call (window : bool) (store : StoredItem) (c : Call) : StoredItem :=
  match c with
  | SaveSession session uuid now => saveSession window store session uuid now
  | DeleteSession id' => deleteSession window store id'
  | ClearAll => clearAll window store
  end.

Definition calls (window : bool) (store : StoredItem) (cs : list Call)
  : StoredItem :=
  fold_left (call window) cs store.

End WorkoutStorage.

(* ================================================================== *)
(** * Vocabulary of the properties and sample inputs *)
(* ================================================================== *)


(** A pose of 17 landmarks whose right wrist (index 16) sits at height
    [wy] with visibility [vis]. *)
Definition poseWithRightWrist (wy vis : R) : list Landmark :=
  repeat (mkLandmark 0 0 0 None) 16 ++ [mkLandmark (1 / 2) wy 0 (Some vis)].

(** [m] is the least (greatest) element of [l]. *)
Definition isMin (m : R) (l : list R) : Prop :=
  In m l /\ forall v, In v l -> m <= v.
Definition isMax (m : R) (l : list R) : Prop :=
  In m l /\ forall v, In v l -> v <= m.

(** A frame with the given elbow and hip angles, lying flat. *)
Definition flatFrame (time elbowA hipA : R) : FrameFeatures :=
  mkFrameFeatures time (Some elbowA) (Some hipA) (Some (1 / 2)) (Some (1 / 2))
                  (Some (1 / 2)).

(** Eight frames that only dip from 170 to 140 degrees. *)
Definition shallowRep : list RepFeature :=
  [ flatFrame 0 170 175; flatFrame 1 168 175; flatFrame 2 160 175;
    flatFrame 3 150 175; flatFrame 4 140 175; flatFrame 5 150 175;
    flatFrame 6 160 175; flatFrame 7 170 175 ].

(** The mean of [j.visibility ?? 0] over joints that are all present. *)
Definition meanVisibility (joints : list Landmark) : R :=
  fold_right (fun j acc => orElse (visibility j) 0 + acc) 0 joints
  / INR (length joints).

(** A pose of 29 landmarks, all at height [h] and with visibility [vis]. *)
Definition uniformPose (h vis : R) : list Landmark :=
  repeat (mkLandmark (1 / 2) h 0 (Some vis)) 29.

(** A page in the middle of a repetition: [AT_TOP] with one buffered
    frame and a start streak of 3. *)
Definition midRepPage : PageState :=
  mkPageState AT_TOP AT_TOP [flatFrame 0 170 175] [] (Some (1 / 2)) 3
              SQ_WAITING_FOR_START [] O None (LabelOf AT_TOP) true O.

(** A frame without angles (joints not visible enough) whose shoulders are
    far above the hips. *)
Definition blindUprightFrame : FrameFeatures :=
  mkFrameFeatures 1 None None (Some (1 / 20)) (Some (1 / 10)) (Some (9 / 10)).

(** A frame with straight arms and body, standing upright. *)
Definition uprightFrame (time : R) : FrameFeatures :=
  mkFrameFeatures time (Some 170) (Some 175) (Some (1 / 20)) (Some (2 / 10))
                  (Some (8 / 10)).

(** A frame with both angles and both heights resolved. *)
Definition fullyAngled (f : FrameFeatures) : Prop :=
  elbowAngle f <> None /\ hipAngle f <> None
  /\ shoulderY f <> None /\ hipY f <> None.

(** The buffer in progress, and every buffer that was validated, scored
    and logged, holds fully-angled frames only. *)
Definition buffersAngled (s : PageState) : Prop :=
  Forall fullyAngled (currentRep s)
  /\ Forall (fun rep => Forall fullyAngled (features rep)) (completedReps s).

(** The "at top" predicate of a frame: elbow angle at least 160, hip angle
    at least 150, body horizontal. *)
Definition atTopFrame (f : FrameFeatures) : bool :=
  match elbowAngle f, hipAngle f, shoulderY f, hipY f with
  | Some e, Some h, Some shY, Some hpY =>
    leb (Math_abs (shY - hpY)) HORIZONTAL_BODY_MAX_DELTA_Y
    && geb e ELBOW_TOP_ANGLE && geb h HIP_STRAIGHT_ANGLE
  | _, _, _, _ => false
  end.

(** Some three consecutive frames of the sequence are all "at top". *)
Fixpoint hasTopStreak3 (frames : list FrameFeatures) : bool :=
  match frames with
  | a :: rest =>
    match rest with
    | b :: c :: _ => atTopFrame a && atTopFrame b && atTopFrame c
    | _ => false
    end || hasTopStreak3 rest
  | [] => false
  end.

(** A frame that arrives in the browser when [Date.now()] reads [ms]. *)
Definition at_ms (ms : Z) (f : FrameFeatures) : Env * FrameFeatures :=
  (mkEnv true ms, f).

(** Two frames at the top, one frame standing upright (angles resolved,
    body vertical), one more frame at the top, then a full descent and
    ascent. *)
Definition interruptedStart : list (Env * FrameFeatures) :=
  [ at_ms 0 (flatFrame 0 170 175); at_ms 33 (flatFrame 1 168 175);
    at_ms 66 (uprightFrame 2);
    at_ms 100 (flatFrame 3 169 175);
    at_ms 133 (flatFrame 4 150 175); at_ms 166 (flatFrame 5 110 175);
    at_ms 200 (flatFrame 6 88 175); at_ms 233 (flatFrame 7 130 175);
    at_ms 266 (flatFrame 8 165 175) ].

(** The frames that the waiting machine passes over without touching the
    streak: both angles resolved, but a height missing or the body not
    horizontal. *)
Definition streakNeutral (f : FrameFeatures) : bool :=
  match elbowAngle f, hipAngle f with
  | Some _, Some _ =>
    match shoulderY f, hipY f with
    | Some shY, Some hpY =>
      negb (leb (Math_abs (shY - hpY)) HORIZONTAL_BODY_MAX_DELTA_Y)
    | _, _ => true
    end
  | _, _ => false
  end.

(** Number of "at top" frames at the head of the sequence. *)
Fixpoint leadingTops (frames : list FrameFeatures) : nat :=
  match frames with
  | f :: rest => if atTopFrame f then S (leadingTops rest) else O
  | [] => O
  end.

(** A template covers its phases when it has at least one phase and a mean
    for every phase of both tracks. *)
Definition templateCovers (tpl : PushupTemplate) : Prop :=
  (1 <= phaseCount tpl)%nat
  /\ (phaseCount tpl <= length (mean (tplElbow tpl)))%nat
  /\ (phaseCount tpl <= length (mean (tplHip tpl)))%nat.

(** A template without phases. *)
Definition emptyTemplate : PushupTemplate :=
  mkPushupTemplate 0 (mkStats [] []) (mkStats [] []) (mkStats [] []).

(** The scenario of three frames at the top, a descent to 88 degrees and
    the ascent back to the top. *)
Definition fullPushup : list (Env * FrameFeatures) :=
  [ at_ms 0 (flatFrame 0 170 175); at_ms 33 (flatFrame 1 168 175);
    at_ms 66 (flatFrame 2 169 175);
    at_ms 100 (flatFrame 3 150 175); at_ms 133 (flatFrame 4 110 175);
    at_ms 166 (flatFrame 5 88 175); at_ms 200 (flatFrame 6 130 175);
    at_ms 233 (flatFrame 7 165 175) ].

(** The buffer that [fullPushup] closes. *)
Definition fullPushupBuffer : list RepFeature :=
  [ flatFrame 2 169 175; flatFrame 3 150 175; flatFrame 4 110 175;
    flatFrame 5 88 175; flatFrame 6 130 175; flatFrame 7 165 175 ].

(** The acceptance rule of a closed squat cycle, on the buffered knee
    angles: at least 6 of them, a range of at least 35 degrees, and a
    minimum of at most 105 degrees. *)
Definition squatAccepted (angles : list R) : Prop :=
  (6 <= length angles)%nat
  /\ exists lo hi,
       isMin lo angles /\ isMax hi angles /\ 35 <= hi - lo /\ lo <= 105.

(** What the acceptance of a squat does: log it with correctness 100 and
    no features, update the UI count and score, fire [squatCompleted]. *)
Definition acceptSquat (env : Env) (s : PageState) : PageState * list Event :=
  let s1 := set_completedReps
              (completedReps s ++ [mkCompletedRep [] (Val 100)]) s in
  (set_lastRepScore (Some (Val 100))
     (set_uiRepCount (length (completedReps s1)) s1),
   dispatch env (squatCompleted (length (completedReps s1)) (dateNow env))).

(** A pose of 29 landmarks with both legs straight and vertical: hips at
    height 0.2, knees at 0.5, ankles at 0.8, every joint well visible. *)
Definition legJoint (h : R) : Landmark := mkLandmark (1 / 2) h 0 (Some (9 / 10)).

(** The 23 landmarks above the hips, then hips, knees and ankles. *)
Definition straightLegs : list Landmark :=
  repeat (legJoint (1 / 10)) 23
  ++ [ legJoint (2 / 10); legJoint (2 / 10); legJoint (5 / 10);
       legJoint (5 / 10); legJoint (8 / 10); legJoint (8 / 10) ].

(** A page on the way up from a squat that went down to 95 degrees. *)
Definition risingPage : PageState :=
  mkPageState WAITING_FOR_START WAITING_FOR_START [] [] None O
              SQ_GOING_UP [170; 150; 120; 95; 130] O None Waiting false O.

(** The score that an event carries in its [detail], if it has one. *)
Definition eventScore (ev : Event) : option number :=
  match ev with
  | pushupCompleted score _ _ => Some score
  | squatCompleted _ _ => None
  | handYUpdate _ _ _ => None
  end.

(** The landmark [p] moved by [(dx, dy, dz)]. *)
Definition translate (dx dy dz : R) (p : Landmark) : Landmark :=
  mkLandmark (x p + dx) (y p + dy) (z p + dz) (visibility p).


(** The acceptance rule of a closed push-up buffer, on its non-null elbow
    angles: at least 6 of them, a spread of at least 40 degrees, and a
    least angle of at most 100 degrees. *)
Definition pushupAccepted (angles : list R) : Prop :=
  (6 <= length angles)%nat
  /\ exists lo hi,
       isMin lo angles /\ isMax hi angles /\ 40 <= hi - lo /\ lo <= 100.

(** The moves of the push-up machine in one frame: stay, advance along
    the cycle, fall back from [GOING_DOWN] to [AT_TOP], or reset to
    [WAITING_FOR_START]. *)
Definition pushupEdge (a b : PushupState) : bool :=
  match a, b with
  | WAITING_FOR_START, (WAITING_FOR_START | AT_TOP)
  | AT_TOP, (AT_TOP | GOING_DOWN | WAITING_FOR_START)
  | GOING_DOWN, (GOING_DOWN | AT_BOTTOM | AT_TOP | WAITING_FOR_START)
  | AT_BOTTOM, (AT_BOTTOM | GOING_UP | WAITING_FOR_START)
  | GOING_UP, (GOING_UP | AT_TOP | WAITING_FOR_START) => true
  | _, _ => false
  end.

(** The frame passes the two null guards and the posture gate with these
    angles. *)
Definition gatedFrame (f : FrameFeatures) (elbowA hipA : R) : Prop :=
  elbowAngle f = Some elbowA /\ hipAngle f = Some hipA
  /\ exists shY hpY,
       shoulderY f = Some shY /\ hipY f = Some hpY
       /\ Rabs (shY - hpY) <= HORIZONTAL_BODY_MAX_DELTA_Y.

(** The correctness of the repetition logged last. *)
Definition lastCorrectness (log : list CompletedRep) : option number :=
  match rev log with
  | [] => None
  | r :: _ => Some (correctness r)
  end.

(** The UI count and the UI score agree with the log. *)
Definition logCoherent (s : PageState) : Prop :=
  uiRepCount s = length (completedReps s)
  /\ lastRepScore s = lastCorrectness (completedReps s).

(** The refs of the push-up machine agree with its state: while waiting
    the buffer is empty and the start streak is below 3; in every other
    state the buffer starts with an "at top" frame, the streak is 3, and
    [lastState], the label and the start flag show the state. *)
Definition pushupCoherent (s : PageState) : Prop :=
  match pushupState s with
  | WAITING_FOR_START =>
    currentRep s = [] /\ (topStreak s < 3)%nat
    /\ startingPositionDetected s = false
  | st =>
    (exists f rest, currentRep s = f :: rest /\ atTopFrame f = true)
    /\ topStreak s = 3%nat
    /\ lastState s = st
    /\ currentStateLabel s = LabelOf st
    /\ startingPositionDetected s = true
  end.

(** A logged push-up: its buffer was accepted by the validator, its
    correctness is the score of that buffer, and the buffer starts and
    ends with an "at top" frame. *)
Definition validLogEntry (tpl : option PushupTemplate) (r : CompletedRep)
  : Prop :=
  repIsValid (features r) = true
  /\ correctness r = scoreRep tpl (features r)
  /\ (exists f rest, features r = f :: rest /\ atTopFrame f = true)
  /\ (exists front f, features r = front ++ [f] /\ atTopFrame f = true).

(** The [repCount] that an event carries in its [detail], if it has one. *)
Definition eventRepCount (ev : Event) : option nat :=
  match ev with
  | pushupCompleted _ repCount _ => Some repCount
  | squatCompleted repCount _ => Some repCount
  | handYUpdate _ _ _ => None
  end.

(** The moves of the squat machine in one frame: stay, advance along the
    cycle, or fall back from [GOING_DOWN] to [STANDING].  No move leads
    back to [WAITING_FOR_START]. *)
Definition squatEdge (a b : SquatState) : bool :=
  match a, b with
  | SQ_WAITING_FOR_START, (SQ_WAITING_FOR_START | SQ_STANDING)
  | SQ_STANDING, (SQ_STANDING | SQ_GOING_DOWN)
  | SQ_GOING_DOWN, (SQ_GOING_DOWN | SQ_AT_BOTTOM | SQ_STANDING)
  | SQ_AT_BOTTOM, (SQ_AT_BOTTOM | SQ_GOING_UP)
  | SQ_GOING_UP, (SQ_GOING_UP | SQ_STANDING) => true
  | _, _ => false
  end.



(** The last [n] elements of a list. *)
Definition lastN {A : Type} (n : nat) (l : list A) : list A :=
  skipn (length l - n) l.

(** The poses that the callback processes, with their video times: the
    first pose of every result that has one. *)
Definition processedPoses (results : list PoseResult)
  : list (R * list Landmark) :=
  flat_map (fun r => match result_landmarks r with
                     | [] => []
                     | firstPose :: _ => [(result_time r, firstPose)]
                     end) results.


(** Every result with a pose either stays below the visibility gate or
    has all ten key joints of the push-up extractor. *)
Definition posesComplete (results : list PoseResult) : Prop :=
  Forall (fun tp => avgVisOf (pushupKeyJoints (snd tp)) < MIN_VIS_BODY
                    \/ ~ In None (pushupKeyJoints (snd tp)))
         (processedPoses results).

(** A result with one pose whose joints are all barely visible. *)
Definition blindResult : PoseResult :=
  mkPoseResult (mkEnv true 0%Z) [uniformPose (3 / 10) (1 / 10)] 7.


(** The session that [saveSession] builds from its input, the fresh id
    and the current date. *)
Definition savedSession (session : WorkoutStorage.SessionInput)
  (uuid : String.string) (now : Z) : WorkoutStorage.WorkoutSession :=
  WorkoutStorage.mkWorkoutSession uuid
    (WorkoutStorage.in_exerciseId session)
    (WorkoutStorage.in_exerciseName session) now
    (WorkoutStorage.in_duration session) (WorkoutStorage.in_reps session)
    (WorkoutStorage.in_avgFormScore session)
    (WorkoutStorage.in_feedbackSummary session).

Import String.StringSyntax.
Delimit Scope string_scope with string.

(** A sample input of [saveSession]. *)
Definition pushupSession : WorkoutStorage.SessionInput :=
  WorkoutStorage.mkSessionInput "pushups"%string "Push-ups"%string 60 10 90
    (WorkoutStorage.mkFeedbackSummary 8 2 0).

(** Every phase of [repPhases] is within [k] (in units of the template's
    deviation, [std[i] || 1]) of the template's mean, on both tracks. *)
Definition phasesWithin (tpl : PushupTemplate) (repPhases : list Phase)
  (k : R) : Prop :=
  forall i, (i < phaseCount tpl)%nat ->
    exists mE mH,
      nth_error (mean (tplElbow tpl)) i = Some mE
      /\ nth_error (mean (tplHip tpl)) i = Some mH
      /\ Math_abs (elbow (nth i repPhases (mkPhase 0 0)) - mE)
         / stdOr1 (std (tplElbow tpl)) i <= k
      /\ Math_abs (hip (nth i repPhases (mkPhase 0 0)) - mH)
         / stdOr1 (std (tplHip tpl)) i <= k.

(** A template of two phases at the top position, without deviations. *)
Definition topTemplate : PushupTemplate :=
  mkPushupTemplate 2 (mkStats [170; 170] []) (mkStats [175; 175] [])
                   (mkStats [] []).
(* ================================================================== *)
(** * Properties *)
(* ================================================================== *)

(** ** Comparisons and clamps *)

Section Comparisons.

Variables a b : R.

Lemma geb_true_iff : geb a b = true <-> b <= a.
Proof. unfold geb; destruct (Rle_dec b a); split; intros; congruence || lra. Qed.

Lemma geb_false_iff : geb a b = false <-> a < b.
Proof. unfold geb; destruct (Rle_dec b a); split; intros; congruence || lra. Qed.

Lemma leb_true_iff : leb a b = true <-> a <= b.
Proof. unfold leb; destruct (Rle_dec a b); split; intros; congruence || lra. Qed.

Lemma leb_false_iff : leb a b = false <-> b < a.
Proof. unfold leb; destruct (Rle_dec a b); split; intros; congruence || lra. Qed.

Lemma ltb_true_iff : ltb a b = true <-> a < b.
Proof. unfold ltb; destruct (Rlt_dec a b); split; intros; congruence || lra. Qed.

Lemma ltb_false_iff : ltb a b = false <-> b <= a.
Proof. unfold ltb; destruct (Rlt_dec a b); split; intros; congruence || lra. Qed.

Lemma gtb_true_iff : gtb a b = true <-> b < a.
Proof. unfold gtb; destruct (Rlt_dec b a); split; intros; congruence || lra. Qed.

Lemma gtb_false_iff : gtb a b = false <-> a <= b.
Proof. unfold gtb; destruct (Rlt_dec b a); split; intros; congruence || lra. Qed.

Lemma eqb_true_iff : eqb a b = true <-> a = b.
Proof. unfold eqb; destruct (Req_dec_T a b); split; intros; congruence. Qed.

Lemma eqb_false_iff : eqb a b = false <-> a <> b.
Proof. unfold eqb; destruct (Req_dec_T a b); split; intros; congruence. Qed.

End Comparisons.

(** Evaluation of the comparisons, [Math.abs], [Math.max] and [Math.min] on
    concrete numbers. *)
Ltac js_eval_step :=
  match goal with
  | |- context [Rabs ?u] =>
      first [ rewrite (Rabs_right u) by lra | rewrite (Rabs_left u) by lra ]
  | |- context [Rmax ?u ?v] =>
      first [ rewrite (Rmax_left u v) by lra | rewrite (Rmax_right u v) by lra ]
  | |- context [Rmin ?u ?v] =>
      first [ rewrite (Rmin_left u v) by lra | rewrite (Rmin_right u v) by lra ]
  | |- context [geb ?u ?v] =>
      first [ rewrite (proj2 (geb_true_iff u v)) by lra
            | rewrite (proj2 (geb_false_iff u v)) by lra ]
  | |- context [leb ?u ?v] =>
      first [ rewrite (proj2 (leb_true_iff u v)) by lra
            | rewrite (proj2 (leb_false_iff u v)) by lra ]
  | |- context [ltb ?u ?v] =>
      first [ rewrite (proj2 (ltb_true_iff u v)) by lra
            | rewrite (proj2 (ltb_false_iff u v)) by lra ]
  | |- context [gtb ?u ?v] =>
      first [ rewrite (proj2 (gtb_true_iff u v)) by lra
            | rewrite (proj2 (gtb_false_iff u v)) by lra ]
  | |- context [eqb ?u ?v] =>
      first [ rewrite (proj2 (eqb_true_iff u v)) by lra
            | rewrite (proj2 (eqb_false_iff u v)) by lra ]
  end.

Create HintDb thresholds.
#[export] Hint Unfold ELBOW_TOP_ANGLE ELBOW_BOTTOM_ANGLE MIN_ANGLE_DELTA
  HIP_STRAIGHT_ANGLE MIN_VIS_BODY HORIZONTAL_BODY_MAX_DELTA_Y
  BOTTOM_ANGLE_MARGIN SQUAT_KNEE_TOP_ANGLE SQUAT_KNEE_BOTTOM_ANGLE
  SQUAT_MIN_ANGLE_DELTA : thresholds.

Ltac js_eval :=
  repeat (cbn -[Rabs Rmax Rmin geb leb ltb gtb eqb Rplus Rminus Rmult Rdiv
                Rinv Ropp IZR INR sqrt acos PI];
          unfold Math_abs, Math_max, Math_min, Math_max_of, Math_min_of;
          autounfold with thresholds;
          try js_eval_step).

Lemma clamp_bounds (lo hi v : R) : lo <= hi -> lo <= clamp lo hi v <= hi.
Proof.
  intros Hle. unfold clamp, Math_max, Math_min.
  destruct (Rle_dec hi v) as [H | H].
  - rewrite Rmin_left by assumption. rewrite Rmax_right by assumption. lra.
  - rewrite Rmin_right by lra.
    destruct (Rle_dec lo v).
    + rewrite Rmax_right by assumption. lra.
    + rewrite Rmax_left by lra. lra.
Qed.

Lemma clamp_monotone (lo hi u v : R) : u <= v -> clamp lo hi u <= clamp lo hi v.
Proof.
  intros Huv. unfold clamp, Math_max, Math_min.
  apply Rle_max_compat_l. apply Rle_min_compat_l. assumption.
Qed.

(** [Math.min(...)] is a lower bound, [Math.max(...)] an upper bound, and
    both are elements of the array. *)
Lemma Math_min_of_le (xs : list R) : forall x0, Math_min_of x0 xs <= x0.
Proof.
  unfold Math_min_of. induction xs as [| v tl IH]; intros x0; simpl.
  - lra.
  - specialize (IH (Rmin x0 v)). pose proof (Rmin_l x0 v). lra.
Qed.

Lemma Math_max_of_ge (xs : list R) : forall x0, x0 <= Math_max_of x0 xs.
Proof.
  unfold Math_max_of. induction xs as [| v tl IH]; intros x0; simpl.
  - lra.
  - specialize (IH (Rmax x0 v)). pose proof (Rmax_l x0 v). lra.
Qed.

Lemma Math_min_of_lower (xs : list R) :
  forall x0 v, In v (x0 :: xs) -> Math_min_of x0 xs <= v.
Proof.
  unfold Math_min_of. induction xs as [| w tl IH]; intros x0 v Hin; simpl.
  - destruct Hin as [-> | []]. lra.
  - destruct Hin as [-> | [-> | Hin]].
    + pose proof (Math_min_of_le tl (Rmin v w)) as H. unfold Math_min_of in H.
      pose proof (Rmin_l v w). lra.
    + pose proof (Math_min_of_le tl (Rmin x0 v)) as H. unfold Math_min_of in H.
      pose proof (Rmin_r x0 v). lra.
    + apply IH. right. assumption.
Qed.

Lemma Math_max_of_upper (xs : list R) :
  forall x0 v, In v (x0 :: xs) -> v <= Math_max_of x0 xs.
Proof.
  unfold Math_max_of. induction xs as [| w tl IH]; intros x0 v Hin; simpl.
  - destruct Hin as [-> | []]. lra.
  - destruct Hin as [-> | [-> | Hin]].
    + pose proof (Math_max_of_ge tl (Rmax v w)) as H. unfold Math_max_of in H.
      pose proof (Rmax_l v w). lra.
    + pose proof (Math_max_of_ge tl (Rmax x0 v)) as H. unfold Math_max_of in H.
      pose proof (Rmax_r x0 v). lra.
    + apply IH. right. assumption.
Qed.

(** ** The three-point angle *)

Section Angle.






End Angle.

(** ** The hand tracker *)

Section AxisTracker.

Lemma handYNorm_clamp (wy : R) : handYNorm wy = 1 - clamp 0 1 wy.
Proof. reflexivity. Qed.

Lemma handYNorm_range (wy : R) : 0 <= handYNorm wy <= 1.
Proof.
  rewrite handYNorm_clamp.
  pose proof (clamp_bounds 0 1 wy ltac:(lra)). lra.
Qed.

Lemma handYNorm_antitone (y1 y2 : R) : y1 <= y2 -> handYNorm y2 <= handYNorm y1.
Proof.
  intros H. rewrite !handYNorm_clamp.
  pose proof (clamp_monotone 0 1 y1 y2 H). lra.
Qed.

(** C8.  [trackHandY] dispatches at most one [handYUpdate]; it does so only
    when the chosen wrist is present with visibility at least 0.4; the value
    is [1 - clamp(wrist.y, 0, 1)], lies in [[0,1]], and does not increase
    when the raw [wrist.y] increases. *)
Theorem trackHandY_axis (env : Env) (landmarks : list Landmark) (hand : Hand) :
  (forall ev, In ev (trackHandY env landmarks hand) ->
     exists wrist,
       at_index landmarks (wristIndexOf hand) = Some wrist
       /\ MIN_VIS_BODY <= orElse (visibility wrist) 0
       /\ ev = handYUpdate hand (1 - clamp 0 1 (y wrist)) (dateNow env)
       /\ 0 <= 1 - clamp 0 1 (y wrist) <= 1)
  /\ (length (trackHandY env landmarks hand) <= 1)%nat
  /\ (forall y1 y2, y1 <= y2 -> handYNorm y2 <= handYNorm y1).
Proof.
  split; [| split].
  - intros ev Hin. unfold trackHandY in Hin.
    destruct (at_index landmarks (wristIndexOf hand)) as [wrist |]; [| contradiction].
    destruct (ltb (orElse (visibility wrist) 0) MIN_VIS_BODY) eqn:Hvis;
      [contradiction |].
    apply ltb_false_iff in Hvis.
    unfold dispatch in Hin. destruct (hasWindow env); [| contradiction].
    destruct Hin as [<- | []].
    exists wrist. repeat split; try assumption.
    + pose proof (handYNorm_range (y wrist)) as Hr.
      rewrite handYNorm_clamp in Hr. lra.
    + pose proof (handYNorm_range (y wrist)) as Hr.
      rewrite handYNorm_clamp in Hr. lra.
  - unfold trackHandY, dispatch.
    destruct (at_index landmarks (wristIndexOf hand)); simpl; [| lia].
    destruct (ltb _ _); simpl; [lia |].
    destruct (hasWindow env); simpl; lia.
  - apply handYNorm_antitone.
Qed.

Lemma trackHandY_axis_witness :
  exists wrist,
    at_index (poseWithRightWrist (1 / 4) (9 / 10)) (wristIndexOf RIGHT)
      = Some wrist
    /\ MIN_VIS_BODY <= orElse (visibility wrist) 0
    /\ handYUpdate RIGHT (3 / 4) 1000%Z
       = handYUpdate RIGHT (1 - clamp 0 1 (y wrist)) (dateNow (mkEnv true 1000%Z))
    /\ 0 <= 1 - clamp 0 1 (y wrist) <= 1.
Proof.
  apply (proj1 (trackHandY_axis (mkEnv true 1000%Z)
                  (poseWithRightWrist (1 / 4) (9 / 10)) RIGHT)).
  unfold trackHandY, MIN_VIS_BODY, handYNorm. js_eval.
  left. f_equal. lra.
Defined.

End AxisTracker.

(** ** The push-up validator *)

Section Validator.

Lemma Math_min_of_In (xs : list R) : forall x0, In (Math_min_of x0 xs) (x0 :: xs).
Proof.
  unfold Math_min_of. induction xs as [| w tl IH]; intros x0; simpl.
  - left. reflexivity.
  - destruct (IH (Rmin x0 w)) as [H | H].
    + rewrite <- H. unfold Rmin. destruct (Rle_dec x0 w); auto.
    + right. right. assumption.
Qed.

Lemma Math_max_of_In (xs : list R) : forall x0, In (Math_max_of x0 xs) (x0 :: xs).
Proof.
  unfold Math_max_of. induction xs as [| w tl IH]; intros x0; simpl.
  - left. reflexivity.
  - destruct (IH (Rmax x0 w)) as [H | H].
    + rewrite <- H. unfold Rmax. destruct (Rle_dec x0 w); auto.
    + right. right. assumption.
Qed.

Lemma Math_min_of_isMin (x0 : R) (xs : list R) : isMin (Math_min_of x0 xs) (x0 :: xs).
Proof. split; [apply Math_min_of_In | apply Math_min_of_lower]. Qed.

Lemma Math_max_of_isMax (x0 : R) (xs : list R) : isMax (Math_max_of x0 xs) (x0 :: xs).
Proof. split; [apply Math_max_of_In | apply Math_max_of_upper]. Qed.

Lemma isMin_unique (l : list R) (m m' : R) : isMin m l -> isMin m' l -> m = m'.
Proof. intros [Hin H] [Hin' H']. apply Rle_antisym; auto. Qed.

Lemma isMax_unique (l : list R) (m m' : R) : isMax m l -> isMax m' l -> m = m'.
Proof. intros [Hin H] [Hin' H']. apply Rle_antisym; auto. Qed.

(** C3.  A buffer whose non-null elbow angles span less than 40 degrees
    (greatest minus least) is rejected by [repIsValid], whatever its
    length; so is a buffer without any non-null elbow angle. *)
Theorem repIsValid_rejects_small_range (features : list RepFeature) :
  (elbowAngles features = []
   \/ exists lo hi,
        isMin lo (elbowAngles features) /\ isMax hi (elbowAngles features)
        /\ hi - lo < 40) ->
  repIsValid features = false.
Proof.
  intros H. unfold repIsValid.
  destruct (elbowAngles features) as [| a rest] eqn:Hea; [reflexivity |].
  destruct H as [H | (lo & hi & Hlo & Hhi & Hrange)]; [discriminate |].
  destruct (length (a :: rest) <? MIN_VALID_FRAMES_PER_REP)%nat; [reflexivity |].
  rewrite (isMin_unique _ _ _ (Math_min_of_isMin a rest) Hlo).
  rewrite (isMax_unique _ _ _ (Math_max_of_isMax a rest) Hhi).
  unfold MIN_ANGLE_DELTA.
  rewrite (proj2 (ltb_true_iff (hi - lo) 40) Hrange). reflexivity.
Qed.

Lemma repIsValid_rejects_small_range_witness : repIsValid shallowRep = false.
Proof.
  apply (repIsValid_rejects_small_range shallowRep).
  right. exists 140, 170. unfold isMin, isMax. simpl.
  repeat split; try tauto; try lra;
    intros v Hv; repeat (destruct Hv as [<- | Hv]; [lra |]); contradiction.
Defined.

End Validator.

(** ** The feature extractor *)

Section Extractor.

Lemma visLoop_present (joints : list Landmark) :
  forall visSum visCount,
    visLoop (map Some joints) visSum visCount
    = (visSum + fold_right (fun j acc => orElse (visibility j) 0 + acc) 0 joints,
       (visCount + length joints)%nat).
Proof.
  induction joints as [| j tl IH]; intros visSum visCount; simpl.
  - f_equal; [lra | lia].
  - rewrite IH. f_equal; [lra | lia].
Qed.

(** When every key joint is present, the gate compares the plain mean of
    the visibilities. *)
Lemma avgVisOf_present (joints : list Landmark) :
  joints <> [] -> avgVisOf (map Some joints) = meanVisibility joints.
Proof.
  intros Hne. unfold avgVisOf, meanVisibility.
  rewrite visLoop_present. rewrite Rplus_0_l, Nat.add_0_l.
  destruct joints as [| j tl]; [contradiction |]. reflexivity.
Qed.

(** Joints that are absent do not enter the mean. *)
Lemma visLoop_skip_absent (keyJoints : list (option Landmark)) :
  forall visSum visCount,
    visLoop keyJoints visSum visCount
    = visLoop (map Some (nonNull keyJoints)) visSum visCount.
Proof.
  induction keyJoints as [| [j |] tl IH]; intros visSum visCount; simpl; auto.
Qed.

Lemma avgVisOf_skip_absent (keyJoints : list (option Landmark)) :
  avgVisOf keyJoints = avgVisOf (map Some (nonNull keyJoints)).
Proof. unfold avgVisOf. rewrite visLoop_skip_absent. reflexivity. Qed.

(** C5.  When the mean visibility of the push-up key joints is below 0.4,
    [extractFrameFeatures] returns (without throwing) a record whose
    [elbowAngle] and [hipAngle] are null, while [headY], [shoulderY] and
    [hipY] are read from the joints that are present: the nose, and the
    average of the two shoulders (hips) or the one that is there. *)
Theorem extractFrameFeatures_below_gate (landmarks : list Landmark) (time : R) :
  avgVisOf (pushupKeyJoints landmarks) < MIN_VIS_BODY ->
  exists ff,
    extractFrameFeatures landmarks time = Normal ff
    /\ elbowAngle ff = None
    /\ hipAngle ff = None
    /\ t ff = time
    /\ headY ff = option_map y (at_index landmarks NOSE)
    /\ shoulderY ff
       = match at_index landmarks L_SHOULDER, at_index landmarks R_SHOULDER with
         | Some l, Some r => Some ((y l + y r) / 2)
         | Some l, None => Some (y l)
         | None, Some r => Some (y r)
         | None, None => None
         end
    /\ hipY ff
       = match at_index landmarks L_HIP, at_index landmarks R_HIP with
         | Some l, Some r => Some ((y l + y r) / 2)
         | Some l, None => Some (y l)
         | None, Some r => Some (y r)
         | None, None => None
         end.
Proof.
  intros Hgate. unfold extractFrameFeatures.
  rewrite (proj2 (geb_false_iff _ _) Hgate). simpl negb. cbv iota.
  eexists. split; [reflexivity |].
  cbn [elbowAngle hipAngle t headY shoulderY hipY].
  repeat split.
  - destruct (at_index landmarks L_SHOULDER), (at_index landmarks R_SHOULDER);
      reflexivity.
  - destruct (at_index landmarks L_HIP), (at_index landmarks R_HIP);
      reflexivity.
Qed.

Lemma extractFrameFeatures_below_gate_witness :
  exists ff,
    extractFrameFeatures (uniformPose (3 / 10) (1 / 10)) 7 = Normal ff
    /\ elbowAngle ff = None
    /\ hipAngle ff = None
    /\ t ff = 7
    /\ headY ff = Some (3 / 10)
    /\ shoulderY ff = Some ((3 / 10 + 3 / 10) / 2)
    /\ hipY ff = Some ((3 / 10 + 3 / 10) / 2).
Proof.
  apply (extractFrameFeatures_below_gate (uniformPose (3 / 10) (1 / 10)) 7).
  unfold avgVisOf, MIN_VIS_BODY. simpl. lra.
Defined.

End Extractor.

(** ** The push-up state machine *)

Section PushupMachine.

Lemma setStateIfChanged_pushupState (n : PushupState) (s : PageState) :
  pushupState (setStateIfChanged n s) = n.
Proof.
  unfold setStateIfChanged.
  destruct n, (pushupState s) eqn:E; simpl; congruence.
Qed.

Lemma setStateIfChanged_currentRep (n : PushupState) (s : PageState) :
  currentRep (setStateIfChanged n s) = currentRep s.
Proof. unfold setStateIfChanged. destruct (negb _); reflexivity. Qed.

Lemma setStateIfChanged_completedReps (n : PushupState) (s : PageState) :
  completedReps (setStateIfChanged n s) = completedReps s.
Proof. unfold setStateIfChanged. destruct (negb _); reflexivity. Qed.

Lemma setStateIfChanged_topStreak (n : PushupState) (s : PageState) :
  topStreak (setStateIfChanged n s) = topStreak s.
Proof. unfold setStateIfChanged. destruct (negb _); reflexivity. Qed.

Lemma setStateIfChanged_baselineHeadY (n : PushupState) (s : PageState) :
  baselineHeadY (setStateIfChanged n s) = baselineHeadY s.
Proof. unfold setStateIfChanged. destruct (negb _); reflexivity. Qed.

Lemma seedBaseline_pushupState (hd : option R) (s : PageState) :
  pushupState (seedBaseline hd s) = pushupState s.
Proof. unfold seedBaseline. destruct (baselineHeadY s), hd; reflexivity. Qed.

Lemma seedBaseline_currentRep (hd : option R) (s : PageState) :
  currentRep (seedBaseline hd s) = currentRep s.
Proof. unfold seedBaseline. destruct (baselineHeadY s), hd; reflexivity. Qed.

Lemma seedBaseline_completedReps (hd : option R) (s : PageState) :
  completedReps (seedBaseline hd s) = completedReps s.
Proof. unfold seedBaseline. destruct (baselineHeadY s), hd; reflexivity. Qed.

Lemma seedBaseline_topStreak (hd : option R) (s : PageState) :
  topStreak (seedBaseline hd s) = topStreak s.
Proof. unfold seedBaseline. destruct (baselineHeadY s), hd; reflexivity. Qed.

Ltac log_unchanged :=
  left; split; cbn;
  rewrite ?setStateIfChanged_completedReps; reflexivity.

(** What one frame does to the log of completed repetitions and which
    events it fires: nothing, or one accepted repetition with its event. *)
Lemma updatePushupState_log (tpl : option PushupTemplate) (env : Env)
  (s : PageState) (f : FrameFeatures) :
  let r := updatePushupState tpl env s f in
  (completedReps (fst r) = completedReps s /\ snd r = [])
  \/ (pushupState s = GOING_UP
      /\ repIsValid (currentRep s ++ [f]) = true
      /\ completedReps (fst r)
         = completedReps s
           ++ [mkCompletedRep (currentRep s ++ [f])
                              (scoreRep tpl (currentRep s ++ [f]))]
      /\ snd r
         = dispatch env
             (pushupCompleted (scoreRep tpl (currentRep s ++ [f]))
                              (length (completedReps (fst r))) (dateNow env))).
Proof.
  unfold updatePushupState.
  destruct (elbowAngle f) as [e |], (hipAngle f) as [h |];
    try (destruct (PushupState_eqb _ _); left; split; reflexivity).
  destruct (shoulderY f) as [sy |], (hipY f) as [hy |];
    try (left; split; reflexivity).
  destruct (negb (leb _ _)).
  { destruct (negb _); left; split; reflexivity. }
  destruct (pushupState s) eqn:Hst.
  - destruct (geb e ELBOW_TOP_ANGLE && geb h HIP_STRAIGHT_ANGLE);
      [| log_unchanged].
    cbn [topStreak set_topStreak].
    destruct (START_TOP_STREAK <=? _)%nat; log_unchanged.
  - destruct (_ && _); log_unchanged.
  - destruct (leb e ELBOW_BOTTOM_ANGLE); [| destruct (_ && _)]; log_unchanged.
  - destruct (_ && _); log_unchanged.
  - destruct (geb e ELBOW_TOP_ANGLE && geb h HIP_STRAIGHT_ANGLE);
      [| log_unchanged].
    unfold closePushupRep. cbn [currentRep set_currentRep].
    destruct (repIsValid (currentRep s ++ [f])) eqn:Hvalid.
    + right. split; [reflexivity |]. split; [reflexivity |].
      cbn [fst snd]. rewrite !seedBaseline_completedReps. cbn.
      rewrite ?setStateIfChanged_completedReps. split; reflexivity.
    + left. cbn [fst snd]. rewrite !seedBaseline_completedReps. cbn.
      rewrite ?setStateIfChanged_completedReps. split; reflexivity.
Qed.

(** *** The posture gate *)

(** C2, as stated, fails: a frame that leaves the horizontal band but has
    no angles returns at the first guard, and the machine keeps its state
    and its buffer. *)
Lemma posture_reset_skipped_without_angles :
  ~ (forall (tpl : option PushupTemplate) (env : Env) (s : PageState)
            (f : FrameFeatures) (shY hpY : R),
        pushupState s <> WAITING_FOR_START ->
        shoulderY f = Some shY -> hipY f = Some hpY ->
        Rabs (shY - hpY) > 3 / 10 ->
        pushupState (fst (updatePushupState tpl env s f)) = WAITING_FOR_START
        /\ currentRep (fst (updatePushupState tpl env s f)) = []
        /\ topStreak (fst (updatePushupState tpl env s f)) = O).
Proof.
  intros H.
  destruct (H None (mkEnv true 0%Z) midRepPage blindUprightFrame
              (1 / 10) (9 / 10)) as [Hst _].
  - simpl. discriminate.
  - reflexivity.
  - reflexivity.
  - rewrite Rabs_left by lra. lra.
  - simpl in Hst. discriminate.
Qed.

(** C2, amended.  In every state other than [WAITING_FOR_START], a frame
    with both angles and both heights whose [|shoulderY - hipY|] exceeds
    0.3 puts the machine back in [WAITING_FOR_START], empties the buffer,
    zeroes the start streak, and neither logs a repetition nor fires an
    event. *)
Theorem updatePushupState_posture_reset (tpl : option PushupTemplate)
  (env : Env) (s : PageState) (f : FrameFeatures) (elbowA hipA shY hpY : R) :
  pushupState s <> WAITING_FOR_START ->
  elbowAngle f = Some elbowA -> hipAngle f = Some hipA ->
  shoulderY f = Some shY -> hipY f = Some hpY ->
  Rabs (shY - hpY) > HORIZONTAL_BODY_MAX_DELTA_Y ->
  pushupState (fst (updatePushupState tpl env s f)) = WAITING_FOR_START
  /\ currentRep (fst (updatePushupState tpl env s f)) = []
  /\ topStreak (fst (updatePushupState tpl env s f)) = O
  /\ completedReps (fst (updatePushupState tpl env s f)) = completedReps s
  /\ snd (updatePushupState tpl env s f) = [].
Proof.
  intros Hst He Hh Hs Hp Hdelta.
  unfold updatePushupState. rewrite He, Hh, Hs, Hp.
  unfold Math_abs.
  rewrite (proj2 (leb_false_iff _ _) Hdelta). cbn [negb].
  destruct (pushupState s); [contradiction | | | |]; cbn; auto.
Qed.

Lemma updatePushupState_posture_reset_witness :
  pushupState (fst (updatePushupState None (mkEnv true 0%Z) midRepPage
                      (uprightFrame 1))) = WAITING_FOR_START
  /\ currentRep (fst (updatePushupState None (mkEnv true 0%Z) midRepPage
                        (uprightFrame 1))) = []
  /\ topStreak (fst (updatePushupState None (mkEnv true 0%Z) midRepPage
                       (uprightFrame 1))) = O
  /\ completedReps (fst (updatePushupState None (mkEnv true 0%Z) midRepPage
                           (uprightFrame 1))) = completedReps midRepPage
  /\ snd (updatePushupState None (mkEnv true 0%Z) midRepPage
            (uprightFrame 1)) = [].
Proof.
  apply (updatePushupState_posture_reset None (mkEnv true 0%Z) midRepPage
           (uprightFrame 1) 170 175 (2 / 10) (8 / 10)).
  - simpl. discriminate.
  - reflexivity.
  - reflexivity.
  - reflexivity.
  - reflexivity.
  - unfold HORIZONTAL_BODY_MAX_DELTA_Y. rewrite Rabs_left by lra. lra.
Defined.

(** *** The buffer holds fully-angled frames only *)

Lemma buffersAngled_initial : buffersAngled initialPage.
Proof. split; constructor. Qed.

(** A frame with a null angle or height leaves the buffer and the log
    alone: the machine returns before any write to them. *)
Lemma updatePushupState_partial_frame (tpl : option PushupTemplate)
  (env : Env) (s : PageState) (f : FrameFeatures) :
  ~ fullyAngled f ->
  currentRep (fst (updatePushupState tpl env s f)) = currentRep s
  /\ completedReps (fst (updatePushupState tpl env s f)) = completedReps s
  /\ pushupState (fst (updatePushupState tpl env s f)) = pushupState s
  /\ snd (updatePushupState tpl env s f) = [].
Proof.
  intros Hpartial. unfold updatePushupState.
  destruct (elbowAngle f) as [e |] eqn:He, (hipAngle f) as [h |] eqn:Hh;
    try (destruct (PushupState_eqb _ _); cbn; repeat split; reflexivity).
  destruct (shoulderY f) as [sy |] eqn:Hs, (hipY f) as [hy |] eqn:Hp;
    try (cbn; repeat split; reflexivity).
  exfalso. apply Hpartial. unfold fullyAngled. rewrite He, Hh, Hs, Hp.
  repeat split; discriminate.
Qed.

Lemma Forall_snoc {A : Type} (P : A -> Prop) (l : list A) (a : A) :
  Forall P l -> P a -> Forall P (l ++ [a]).
Proof. intros Hl Ha. apply Forall_app. split; [assumption | constructor; auto]. Qed.

Lemma updatePushupState_buffersAngled (tpl : option PushupTemplate)
  (env : Env) (s : PageState) (f : FrameFeatures) :
  buffersAngled s -> buffersAngled (fst (updatePushupState tpl env s f)).
Proof.
  intros [Hbuf Hlog].
  assert (Hkeep : ~ fullyAngled f ->
                  buffersAngled (fst (updatePushupState tpl env s f))).
  { intros Hp.
    destruct (updatePushupState_partial_frame tpl env s f Hp)
      as (Hc & Hl & _ & _).
    unfold buffersAngled. rewrite Hc, Hl. split; assumption. }
  destruct (elbowAngle f) as [e |] eqn:He;
    [| apply Hkeep; unfold fullyAngled; rewrite He; tauto].
  destruct (hipAngle f) as [h |] eqn:Hh;
    [| apply Hkeep; unfold fullyAngled; rewrite Hh; tauto].
  destruct (shoulderY f) as [sy |] eqn:Hs;
    [| apply Hkeep; unfold fullyAngled; rewrite Hs; tauto].
  destruct (hipY f) as [hy |] eqn:Hp;
    [| apply Hkeep; unfold fullyAngled; rewrite Hp; tauto].
  assert (Hf : fullyAngled f).
  { unfold fullyAngled. rewrite He, Hh, Hs, Hp. repeat split; discriminate. }
  assert (Hone : Forall fullyAngled [f]) by (constructor; auto).
  assert (Hpush : Forall fullyAngled (currentRep s ++ [f]))
    by (apply Forall_snoc; assumption).
  clear Hkeep. unfold buffersAngled, updatePushupState.
  rewrite He, Hh, Hs, Hp.
  destruct (negb (leb _ _)).
  { destruct (negb _); cbn; split; auto. }
  destruct (pushupState s).
  - destruct (_ && _); [| cbn; split; assumption].
    cbn [topStreak set_topStreak].
    destruct (START_TOP_STREAK <=? _)%nat; cbn;
      rewrite ?setStateIfChanged_completedReps; split; assumption.
  - destruct (_ && _); cbn;
      rewrite ?setStateIfChanged_completedReps, ?setStateIfChanged_currentRep;
      split; assumption.
  - destruct (leb e ELBOW_BOTTOM_ANGLE); [| destruct (_ && _)]; cbn;
      rewrite ?setStateIfChanged_completedReps, ?setStateIfChanged_currentRep;
      split; assumption.
  - destruct (_ && _); cbn;
      rewrite ?setStateIfChanged_completedReps, ?setStateIfChanged_currentRep;
      split; assumption.
  - destruct (_ && _); cbn; [| split; assumption].
    unfold closePushupRep. cbn [currentRep set_currentRep].
    destruct (repIsValid (currentRep s ++ [f])); cbn [fst snd];
      rewrite seedBaseline_currentRep, seedBaseline_completedReps; cbn;
      rewrite setStateIfChanged_completedReps; cbn; split; try assumption.
    apply Forall_snoc; [assumption |]. exact Hpush.
Qed.

Lemma runPushups_buffersAngled (tpl : option PushupTemplate)
  (frames : list (Env * FrameFeatures)) :
  forall s, buffersAngled s -> buffersAngled (fst (runPushups tpl s frames)).
Proof.
  induction frames as [| [env f] rest IH]; intros s Hs; simpl.
  - assumption.
  - pose proof (updatePushupState_buffersAngled tpl env s f Hs) as H1.
    destruct (updatePushupState tpl env s f) as [s1 ev1].
    specialize (IH s1 H1).
    destruct (runPushups tpl s1 rest) as [s2 ev2]. exact IH.
Qed.

(** C10.  After any sequence of frames, every frame in the push-up buffer
    has non-null [elbowAngle], [hipAngle], [shoulderY] and [hipY], and so
    has every frame of every buffer that was validated, scored and logged;
    the next frame keeps it so, and when that frame lacks one of the four
    the machine returns before any write: buffer, log and state stay as
    they are and nothing is fired. *)
Theorem pushup_buffer_fully_angled (tpl : option PushupTemplate)
  (frames : list (Env * FrameFeatures)) :
  let s := fst (runPushups tpl initialPage frames) in
  Forall fullyAngled (currentRep s)
  /\ Forall (fun rep => Forall fullyAngled (features rep)) (completedReps s)
  /\ (forall env f,
        Forall fullyAngled (currentRep (fst (updatePushupState tpl env s f))))
  /\ (forall env f,
        ~ fullyAngled f ->
        currentRep (fst (updatePushupState tpl env s f)) = currentRep s
        /\ completedReps (fst (updatePushupState tpl env s f)) = completedReps s
        /\ pushupState (fst (updatePushupState tpl env s f)) = pushupState s
        /\ snd (updatePushupState tpl env s f) = []).
Proof.
  pose proof (runPushups_buffersAngled tpl frames initialPage
                buffersAngled_initial) as Hinv.
  cbv zeta. split; [apply Hinv | split; [apply Hinv | split]].
  - intros env f.
    apply (updatePushupState_buffersAngled tpl env _ f Hinv).
  - intros env f Hpartial.
    apply updatePushupState_partial_frame. exact Hpartial.
Qed.

Lemma pushup_buffer_fully_angled_witness :
  currentRep (fst (updatePushupState None (mkEnv true 0%Z)
                     (fst (runPushups None initialPage [])) blindUprightFrame))
  = [].
Proof.
  apply (proj2 (proj2 (proj2 (pushup_buffer_fully_angled None [])))
           (mkEnv true 0%Z) blindUprightFrame).
  unfold fullyAngled, blindUprightFrame. simpl. intros [H _]. apply H. reflexivity.
Defined.

(** *** The start debounce *)

(** Evaluation of a run on concrete frames, one frame at a time. *)
Ltac run_pushup_frames :=
  cbn [runPushups firstn];
  repeat
    (match goal with
     | |- context [updatePushupState ?tpl ?env ?s ?f] =>
       let H := fresh "Hstep" in
       eassert (H : updatePushupState tpl env s f = _)
         by (unfold updatePushupState, closePushupRep, repIsValid,
               scoreRep, scoreRules, setStateIfChanged, seedBaseline;
             js_eval; reflexivity);
       rewrite H; clear H; cbv beta iota zeta
     end);
  cbn [fst snd app].

(** C1 fails on the code.  No three consecutive frames of
    [interruptedStart] are at the top, yet the upright frame (which does
    not qualify) leaves the streak at 2 instead of resetting it, the fourth
    frame starts a repetition, and the run ends with one repetition
    counted and its event fired. *)
Theorem debounce_survives_upright_frame :
  hasTopStreak3 (map snd interruptedStart) = false
  /\ atTopFrame (uprightFrame 2) = false
  /\ topStreak (fst (runPushups None initialPage (firstn 3 interruptedStart)))
     = 2%nat
  /\ pushupState (fst (runPushups None initialPage (firstn 4 interruptedStart)))
     = AT_TOP
  /\ exists score,
       snd (runPushups None initialPage interruptedStart)
       = [pushupCompleted score 1 266%Z].
Proof.
  unfold interruptedStart, at_ms, flatFrame, uprightFrame.
  split; [| split; [| split; [| split]]].
  - js_eval. reflexivity.
  - unfold atTopFrame. js_eval. reflexivity.
  - run_pushup_frames. reflexivity.
  - run_pushup_frames. reflexivity.
  - eexists. run_pushup_frames. reflexivity.
Qed.

Lemma hasTopStreak3_leadingTops (frames : list FrameFeatures) :
  hasTopStreak3 frames = false -> (leadingTops frames < 3)%nat.
Proof.
  destruct frames as [| a [| b [| c rest]]]; simpl; intros H;
    repeat match goal with
           | |- context [atTopFrame ?f] => destruct (atTopFrame f)
           end; simpl in *; try lia; discriminate.
Qed.

Lemma hasTopStreak3_tail (f : FrameFeatures) (rest : list FrameFeatures) :
  hasTopStreak3 (f :: rest) = false -> hasTopStreak3 rest = false.
Proof. simpl. intros H. apply orb_false_iff in H. apply H. Qed.

Lemma waiting_step_top (tpl : option PushupTemplate) (env : Env)
  (s : PageState) (f : FrameFeatures) :
  pushupState s = WAITING_FOR_START -> atTopFrame f = true ->
  (topStreak s + 1 < 3)%nat ->
  updatePushupState tpl env s f = (set_topStreak (topStreak s + 1) s, []).
Proof.
  intros Hst Htop Hk. unfold atTopFrame in Htop. unfold updatePushupState.
  destruct (elbowAngle f), (hipAngle f), (shoulderY f), (hipY f);
    try discriminate.
  rewrite Hst.
  apply andb_true_iff in Htop. destruct Htop as [Htop Hh].
  apply andb_true_iff in Htop. destruct Htop as [Hpos He].
  rewrite Hpos, He, Hh. cbn -[Nat.leb Nat.add].
  unfold START_TOP_STREAK.
  destruct (3 <=? topStreak s + 1)%nat eqn:Hle; [| reflexivity].
  apply Nat.leb_le in Hle. lia.
Qed.

Lemma waiting_step_reset (tpl : option PushupTemplate) (env : Env)
  (s : PageState) (f : FrameFeatures) :
  pushupState s = WAITING_FOR_START ->
  atTopFrame f = false -> streakNeutral f = false ->
  updatePushupState tpl env s f = (set_topStreak O s, []).
Proof.
  intros Hst Htop Hn. unfold atTopFrame in Htop. unfold streakNeutral in Hn.
  unfold updatePushupState. rewrite Hst.
  destruct (elbowAngle f), (hipAngle f); try reflexivity.
  destruct (shoulderY f), (hipY f); try discriminate.
  apply negb_false_iff in Hn. rewrite Hn in *. cbn [negb andb] in *.
  rewrite Htop. reflexivity.
Qed.

(** Where no frame is of the streak-neutral kind, the debounce is as C1
    describes it: without three consecutive "at top" frames the machine
    stays in [WAITING_FOR_START], logs nothing and fires nothing. *)
Lemma waiting_without_top_streak (tpl : option PushupTemplate)
  (frames : list (Env * FrameFeatures)) :
  forall s,
    pushupState s = WAITING_FOR_START ->
    (topStreak s + leadingTops (map snd frames) < 3)%nat ->
    hasTopStreak3 (map snd frames) = false ->
    Forall (fun ef => streakNeutral (snd ef) = false) frames ->
    pushupState (fst (runPushups tpl s frames)) = WAITING_FOR_START
    /\ completedReps (fst (runPushups tpl s frames)) = completedReps s
    /\ snd (runPushups tpl s frames) = [].
Proof.
  induction frames as [| [env f] rest IH]; intros s Hst Hk H3 Hn.
  - simpl. auto.
  - inversion Hn as [| ? ? Hnf Hnrest]; subst. cbn [snd] in Hnf.
    change (map snd ((env, f) :: rest)) with (f :: map snd rest) in Hk, H3.
    pose proof (hasTopStreak3_tail _ _ H3) as H3rest.
    cbn [leadingTops] in Hk. cbn [runPushups].
    destruct (atTopFrame f) eqn:Htop; rewrite ?Htop in Hk.
    + rewrite (waiting_step_top tpl env s f Hst Htop) by lia.
      destruct (IH (set_topStreak (topStreak s + 1) s)) as (H1 & H2 & H3');
        [exact Hst | cbn; lia | assumption | assumption |].
      destruct (runPushups tpl _ rest) as [s2 ev2]. cbn in *. auto.
    + rewrite (waiting_step_reset tpl env s f Hst Htop Hnf).
      pose proof (hasTopStreak3_leadingTops _ H3rest).
      destruct (IH (set_topStreak O s)) as (H1 & H2 & H3');
        [exact Hst | cbn; lia | assumption | assumption |].
      destruct (runPushups tpl _ rest) as [s2 ev2]. cbn in *. auto.
Qed.

(** *** The scorer *)

Lemma scoreRules_range (buffer : list RepFeature) :
  0 <= scoreRules buffer <= 100.
Proof.
  unfold scoreRules.
  destruct (elbowAngles buffer) as [| a rest]; [lra |].
  destruct (hipAngles buffer) as [| h hrest]; [lra |].
  apply (clamp_bounds 0 100). lra.
Qed.

(** The two components of the rule-based score: up to 70 points for the
    range of motion, up to 30 for the straightness of the body. *)
Lemma scoreRules_components (buffer : list RepFeature) (a h : R)
  (rest hrest : list R) :
  elbowAngles buffer = a :: rest -> hipAngles buffer = h :: hrest ->
  scoreRules buffer
  = clamp 0 100
      (clamp 0 1 ((Math_max_of a rest - Math_min_of a rest) / 80) * 70
       + clamp 0 1 ((Math_max_of h hrest - 140) / 40) * 30).
Proof. intros He Hh. unfold scoreRules. rewrite He, Hh. reflexivity. Qed.

Lemma templateStep_fold_covered (tpl : PushupTemplate)
  (repPhases : list Phase) (idxs : list nat) :
  (forall i, In i idxs ->
     (i < length (mean (tplElbow tpl)))%nat
     /\ (i < length (mean (tplHip tpl)))%nat) ->
  forall (z : R) (n : nat),
  exists totalZ,
    fold_left (templateStep tpl repPhases) idxs (Val z, n)
    = (Val totalZ, (n + 2 * length idxs)%nat).
Proof.
  induction idxs as [| i tl IH]; intros Hidx z n.
  - exists z. simpl. f_equal. lia.
  - destruct (Hidx i (or_introl eq_refl)) as [HiE HiH].
    apply nth_error_Some in HiE. apply nth_error_Some in HiH.
    cbn [fold_left]. unfold templateStep at 2. cbn [fst snd].
    destruct (nth_error (mean (tplElbow tpl)) i) as [mE |]; [| congruence].
    destruct (nth_error (mean (tplHip tpl)) i) as [mH |]; [| congruence].
    cbn [zScore addN].
    match goal with
    | |- context [fold_left _ tl (Val ?z', ?n')] =>
      destruct (IH (fun j Hj => Hidx j (or_intror Hj)) z' n') as [totalZ Htot]
    end.
    exists totalZ. rewrite Htot. f_equal. simpl length. lia.
Qed.

Lemma templateLoop_covered (tpl : PushupTemplate) (repPhases : list Phase) :
  templateCovers tpl ->
  exists totalZ,
    templateLoop tpl repPhases = (Val totalZ, (2 * phaseCount tpl)%nat).
Proof.
  intros (_ & HE & HH). unfold templateLoop.
  destruct (templateStep_fold_covered tpl repPhases (seq 0 (phaseCount tpl)))
    with (z := 0) (n := O) as [totalZ Htot].
  { intros i Hi. apply in_seq in Hi. lia. }
  exists totalZ. rewrite Htot, length_seq. reflexivity.
Qed.

(** With no template, and with a template that covers its phases, the
    score is a number between 0 and 100. *)
Lemma scoreRep_range (tpl : option PushupTemplate) (buffer : list RepFeature) :
  match tpl with Some tp => templateCovers tp | None => True end ->
  exists sc, scoreRep tpl buffer = Val sc /\ 0 <= sc <= 100.
Proof.
  intros Hcov. destruct tpl as [tp |]; simpl.
  - unfold scoreTemplate.
    destruct (negb _); [exists 0; split; [reflexivity | lra] |].
    destruct (templateLoop_covered tp (resampleRep buffer (phaseCount tp)) Hcov)
      as [totalZ ->].
    unfold avgZOf.
    destruct Hcov as (Hpos & _).
    destruct (2 * phaseCount tp =? 0)%nat eqn:Hz;
      [apply Nat.eqb_eq in Hz; lia |].
    cbn [clampN]. eexists. split; [reflexivity |].
    apply clamp_bounds. lra.
  - exists (scoreRules buffer). split; [reflexivity | apply scoreRules_range].
Qed.

(** C4 fails on the code under the template strategy.  With a loaded
    template of zero phases the buffer of [fullPushup] is accepted by the
    validator, the scoring loop does not run, [totalZ / count] is [0/0], and
    the clamp returns [NaN]: the logged correctness and the score of the
    event are [NaN], not a number in [[0,100]]. *)
Theorem scoreRep_NaN_on_empty_template :
  repIsValid fullPushupBuffer = true
  /\ scoreRep (Some emptyTemplate) fullPushupBuffer = NaN
  /\ snd (runPushups (Some emptyTemplate) initialPage fullPushup)
     = [pushupCompleted NaN 1 233%Z]
  /\ map correctness
         (completedReps (fst (runPushups (Some emptyTemplate) initialPage
                                fullPushup)))
     = [NaN].
Proof.
  unfold fullPushup, fullPushupBuffer, at_ms, flatFrame.
  split; [| split; [| split]].
  - unfold repIsValid. js_eval. reflexivity.
  - reflexivity.
  - run_pushup_frames. reflexivity.
  - run_pushup_frames. reflexivity.
Qed.

(** The same scenario under the rule-based strategy: one event, count 1,
    score 70 + 26.25. *)
Lemma fullPushup_rules :
  snd (runPushups None initialPage fullPushup)
  = [pushupCompleted (Val (385 / 4)) 1 233%Z].
Proof.
  unfold fullPushup, at_ms, flatFrame.
  run_pushup_frames. do 3 f_equal. lra.
Qed.

End PushupMachine.

(** ** The squat state machine *)

Section SquatMachine.

Lemma hypot_vertical (v : R) : Math_hypot 0 v = Rabs v.
Proof.
  unfold Math_hypot. replace (0 * 0 + v * v) with (Rsqr v) by (unfold Rsqr; lra).
  apply sqrt_Rsqr_abs.
Qed.

(** A straight limb, drawn vertically in the image, measures 180
    degrees at its middle joint. *)
Lemma angleDegrees_straight (a b c : Landmark) :
  x a = x b -> x c = x b -> y a < y b -> y b < y c ->
  angleDegrees a b c = Some 180.
Proof.
  intros Hxa Hxc Hya Hyc. unfold angleDegrees.
  replace (x a - x b) with 0 by lra. replace (x c - x b) with 0 by lra.
  rewrite !hypot_vertical.
  rewrite (Rabs_left (y a - y b)) by lra.
  rewrite (Rabs_right (y c - y b)) by lra.
  rewrite (proj2 (eqb_false_iff _ _)) by lra.
  rewrite (proj2 (eqb_false_iff _ _)) by lra.
  cbn [orb].
  replace ((0 * 0 + (y a - y b) * (y c - y b))
           / (- (y a - y b) * (y c - y b))) with (-1) by (field; lra).
  unfold Math_max, Math_min.
  rewrite (Rmin_right 1 (-1)) by lra. rewrite (Rmax_left (-1) (-1)) by lra.
  replace (acos (-1)) with (acos (Ropp 1)) by (f_equal; lra).
  rewrite acos_opp, acos_1. f_equal. field. apply PI_neq0.
Qed.

Lemma closeSquatRep_cases (env : Env) (s : PageState) :
  (squatAccepted (squatCurrentRepAngles s)
   /\ closeSquatRep env s = acceptSquat env s)
  \/ (~ squatAccepted (squatCurrentRepAngles s)
      /\ closeSquatRep env s = (s, [])).
Proof.
  unfold closeSquatRep, squatAccepted, SQUAT_MIN_VALID_FRAMES.
  destruct (6 <=? length (squatCurrentRepAngles s))%nat eqn:Hlen.
  2:{ right. split; [| reflexivity].
      apply Nat.leb_gt in Hlen. intros [H _]. lia. }
  apply Nat.leb_le in Hlen.
  destruct (squatCurrentRepAngles s) as [| a rest] eqn:Hangles.
  { simpl in Hlen. lia. }
  pose proof (Math_min_of_isMin a rest) as Hmin.
  pose proof (Math_max_of_isMax a rest) as Hmax.
  unfold SQUAT_KNEE_BOTTOM_ANGLE, SQUAT_MIN_ANGLE_DELTA.
  destruct (leb (Math_min_of a rest) (100 + 5)) eqn:Hlo.
  - destruct (geb (Math_max_of a rest - Math_min_of a rest) 35) eqn:Hrange.
    + left. apply leb_true_iff in Hlo. apply geb_true_iff in Hrange.
      split; [| reflexivity]. split; [assumption |].
      exists (Math_min_of a rest), (Math_max_of a rest).
      split; [exact Hmin |]. split; [exact Hmax |]. split; lra.
    + right. apply geb_false_iff in Hrange. split; [| reflexivity].
      intros (_ & lo & hi & Hlo' & Hhi' & Hr & _).
      rewrite (isMin_unique _ _ _ Hlo' Hmin) in Hr.
      rewrite (isMax_unique _ _ _ Hhi' Hmax) in Hr. lra.
  - right. apply leb_false_iff in Hlo. split; [| reflexivity].
    intros (_ & lo & hi & Hlo' & _ & _ & Hb).
    rewrite (isMin_unique _ _ _ Hlo' Hmin) in Hb. lra.
Qed.

Lemma setSquatStateIfChanged_squatState (n : SquatState) (s : PageState) :
  squatState (setSquatStateIfChanged n s) = n.
Proof.
  unfold setSquatStateIfChanged.
  destruct n, (squatState s) eqn:E; simpl; congruence.
Qed.

Lemma setSquatStateIfChanged_completedReps (n : SquatState) (s : PageState) :
  completedReps (setSquatStateIfChanged n s) = completedReps s.
Proof. unfold setSquatStateIfChanged. destruct (negb _); reflexivity. Qed.

Lemma app_one_neq {A : Type} (l : list A) (a : A) : l ++ [a] <> l.
Proof.
  intros H. apply (f_equal (@length A)) in H.
  rewrite length_app in H. simpl in H. lia.
Qed.

(** C7.  When a frame in [GOING_UP] passes the visibility gate and its knee
    angle is "standing" (at least 165), the cycle closes: the buffer with
    that angle appended is accepted exactly when it has at least 6 angles,
    a range of at least 35 and a minimum of at most 105; an accepted squat
    is logged with correctness 100 (and no features), a rejected one
    leaves the log as it was; either way the machine is [STANDING] again
    with the buffer reseeded. *)
Theorem updateSquatState_closes_cycle (env : Env) (s : PageState)
  (landmarks : list Landmark) (time kneeAngle : R) :
  squatState s = SQ_GOING_UP ->
  MIN_VIS_BODY <= avgVisOf (squatKeyJoints landmarks) ->
  squatKneeAngle landmarks = Some kneeAngle ->
  SQUAT_KNEE_TOP_ANGLE <= kneeAngle ->
  let angles := squatCurrentRepAngles s ++ [kneeAngle] in
  let s' := fst (updateSquatState env s landmarks time) in
  (squatAccepted angles <->
   completedReps s' = completedReps s ++ [mkCompletedRep [] (Val 100)])
  /\ (~ squatAccepted angles -> completedReps s' = completedReps s)
  /\ squatState s' = SQ_STANDING
  /\ squatCurrentRepAngles s' = [kneeAngle].
Proof.
  intros Hst Hvis Hknee Htop angles s'. subst s'.
  unfold updateSquatState.
  rewrite (proj2 (ltb_false_iff _ _) Hvis), Hknee, Hst.
  rewrite (proj2 (geb_true_iff _ _) Htop).
  set (s1 := set_squatCurrentRepAngles (squatCurrentRepAngles s ++ [kneeAngle]) s).
  change (squatCurrentRepAngles s ++ [kneeAngle])
    with (squatCurrentRepAngles s1) in angles.
  destruct (closeSquatRep_cases env s1) as [[Hacc ->] | [Hrej ->]];
    unfold acceptSquat; cbn [fst snd];
    cbn [completedReps set_squatCurrentRepAngles squatState squatCurrentRepAngles];
    rewrite setSquatStateIfChanged_completedReps, setSquatStateIfChanged_squatState;
    cbn [completedReps set_lastRepScore set_uiRepCount set_completedReps s1
         set_squatCurrentRepAngles].
  - split; [split; [reflexivity | intros _; exact Hacc] |].
    split; [intros Hn; contradiction | split; reflexivity].
  - split; [split; [intros Hacc; contradiction |] |].
    + intros Heq. symmetry in Heq. apply app_one_neq in Heq. contradiction.
    + split; [reflexivity | split; reflexivity].
Qed.

Lemma straightLegs_kneeAngle : squatKneeAngle straightLegs = Some 180.
Proof.
  unfold squatKneeAngle, straightLegs, at_index. cbn [repeat app nth_error
    L_HIP L_KNEE L_ANKLE R_HIP R_KNEE R_ANKLE kneeAngleAt].
  rewrite (angleDegrees_straight (legJoint (2 / 10)) (legJoint (5 / 10))
             (legJoint (8 / 10))) by (simpl; lra).
  f_equal. lra.
Qed.

Lemma straightLegs_visible :
  MIN_VIS_BODY <= avgVisOf (squatKeyJoints straightLegs).
Proof. unfold avgVisOf, MIN_VIS_BODY. simpl. lra. Qed.

Lemma risingPage_accepted : squatAccepted [170; 150; 120; 95; 130; 180].
Proof.
  split; [simpl; lia |]. exists 95, 180. unfold isMin, isMax. simpl.
  repeat split; try tauto; try lra;
    intros v Hv; repeat (destruct Hv as [<- | Hv]; [lra |]); contradiction.
Qed.

Lemma updateSquatState_closes_cycle_witness :
  completedReps (fst (updateSquatState (mkEnv true 500%Z) risingPage
                        straightLegs 9))
  = [mkCompletedRep [] (Val 100)].
Proof.
  apply (proj1 (proj1 (updateSquatState_closes_cycle (mkEnv true 500%Z)
                         risingPage straightLegs 9 180 eq_refl
                         straightLegs_visible straightLegs_kneeAngle
                         ltac:(unfold SQUAT_KNEE_TOP_ANGLE; lra)))).
  exact risingPage_accepted.
Defined.

End SquatMachine.

(** ** Events *)

Section Events.

(** What one squat frame does to the log and which events it fires. *)
Lemma updateSquatState_log (env : Env) (s : PageState)
  (landmarks : list Landmark) (time : R) :
  let r := updateSquatState env s landmarks time in
  (completedReps (fst r) = completedReps s /\ snd r = [])
  \/ (completedReps (fst r)
      = completedReps s ++ [mkCompletedRep [] (Val 100)]
      /\ snd r
         = dispatch env
             (squatCompleted (length (completedReps (fst r))) (dateNow env))).
Proof.
  unfold updateSquatState.
  destruct (ltb _ _).
  { destruct (SquatState_eqb _ _); left; split; reflexivity. }
  destruct (squatKneeAngle landmarks) as [k |]; [| left; split; reflexivity].
  destruct (squatState s).
  - destruct (geb k SQUAT_KNEE_TOP_ANGLE); [| left; split; reflexivity].
    cbn [squatTopStreak set_squatTopStreak].
    destruct (START_TOP_STREAK <=? _)%nat; left; cbn;
      rewrite ?setSquatStateIfChanged_completedReps; split; reflexivity.
  - destruct (_ && _); left; cbn;
      rewrite ?setSquatStateIfChanged_completedReps; split; reflexivity.
  - destruct (leb k SQUAT_KNEE_BOTTOM_ANGLE); [| destruct (geb _ _)];
      left; cbn; rewrite ?setSquatStateIfChanged_completedReps;
      split; reflexivity.
  - destruct (_ && _); left; cbn;
      rewrite ?setSquatStateIfChanged_completedReps; split; reflexivity.
  - destruct (geb k SQUAT_KNEE_TOP_ANGLE); [| left; split; reflexivity].
    destruct (closeSquatRep_cases env
                (set_squatCurrentRepAngles (squatCurrentRepAngles s ++ [k]) s))
      as [[_ ->] | [_ ->]]; [right | left]; unfold acceptSquat; cbn;
      rewrite ?setSquatStateIfChanged_completedReps; split; reflexivity.
Qed.

Lemma risingPage_event :
  snd (updateSquatState (mkEnv true 500%Z) risingPage straightLegs 9)
  = [squatCompleted 1 500%Z].
Proof.
  unfold updateSquatState.
  rewrite (proj2 (ltb_false_iff _ _) straightLegs_visible).
  rewrite straightLegs_kneeAngle.
  unfold risingPage, closeSquatRep. js_eval. reflexivity.
Qed.

(** C9, as stated, fails: the event of a completed squat carries the count
    and the time stamp, and no score. *)
Lemma squat_event_carries_no_score :
  ~ (forall (env : Env) (s : PageState) (landmarks : list Landmark)
            (time : R) (ev : Event),
        In ev (snd (updateSquatState env s landmarks time)) ->
        exists sc, eventScore ev = Some (Val sc) /\ 0 <= sc <= 100).
Proof.
  intros H.
  destruct (H (mkEnv true 500%Z) risingPage straightLegs 9
              (squatCompleted 1 500%Z)) as (sc & Hsc & _).
  - rewrite risingPage_event. left. reflexivity.
  - discriminate.
Qed.

(** C9, amended.  A push-up frame fires at most one event, and only for a
    buffer that the validator accepted and that the same frame appends to
    the log: the event carries the score of that repetition as logged, the
    new length of the log (at least 1) and [Date.now()]; the score is a
    number in [[0,100]] when no template is loaded or the template covers
    its phases.  A squat frame fires at most one event, and only for a
    squat that the same frame appends to the log with correctness 100: the
    event carries the new length of the log and [Date.now()], and no
    score.  Where [window] is defined, a frame fires exactly as many
    events as it appends repetitions. *)
Theorem repetition_events :
  (forall tpl env s f ev,
     In ev (snd (updatePushupState tpl env s f)) ->
     exists buffer,
       repIsValid buffer = true
       /\ completedReps (fst (updatePushupState tpl env s f))
          = completedReps s ++ [mkCompletedRep buffer (scoreRep tpl buffer)]
       /\ ev = pushupCompleted (scoreRep tpl buffer)
                 (length (completedReps s) + 1) (dateNow env)
       /\ snd (updatePushupState tpl env s f) = [ev]
       /\ (match tpl with Some tp => templateCovers tp | None => True end ->
           exists sc, scoreRep tpl buffer = Val sc /\ 0 <= sc <= 100))
  /\ (forall env s landmarks time ev,
        In ev (snd (updateSquatState env s landmarks time)) ->
        completedReps (fst (updateSquatState env s landmarks time))
        = completedReps s ++ [mkCompletedRep [] (Val 100)]
        /\ ev = squatCompleted (length (completedReps s) + 1) (dateNow env)
        /\ eventScore ev = None
        /\ snd (updateSquatState env s landmarks time) = [ev])
  /\ (forall tpl env s f,
        hasWindow env = true ->
        length (completedReps (fst (updatePushupState tpl env s f)))
        = (length (completedReps s)
           + length (snd (updatePushupState tpl env s f)))%nat)
  /\ (forall env s landmarks time,
        hasWindow env = true ->
        length (completedReps (fst (updateSquatState env s landmarks time)))
        = (length (completedReps s)
           + length (snd (updateSquatState env s landmarks time)))%nat).
Proof.
  split; [| split; [| split]].
  - intros tpl env s f ev Hin.
    destruct (updatePushupState_log tpl env s f)
      as [[_ Hnone] | (_ & Hvalid & Hlog & Hev)].
    { rewrite Hnone in Hin. contradiction. }
    rewrite Hlog, length_app in Hev. cbn [length] in Hev.
    rewrite Hev in Hin |- *. unfold dispatch in *.
    destruct (hasWindow env); [| contradiction].
    destruct Hin as [<- | []].
    exists (currentRep s ++ [f]).
    split; [exact Hvalid |]. split; [exact Hlog |].
    split; [reflexivity |]. split; [reflexivity |].
    apply scoreRep_range.
  - intros env s landmarks time ev Hin.
    destruct (updateSquatState_log env s landmarks time)
      as [[_ Hnone] | (Hlog & Hev)].
    { rewrite Hnone in Hin. contradiction. }
    rewrite Hlog, length_app in Hev. cbn [length] in Hev.
    rewrite Hev in Hin |- *. unfold dispatch in *.
    destruct (hasWindow env); [| contradiction].
    destruct Hin as [<- | []].
    split; [exact Hlog |]. repeat split.
  - intros tpl env s f Hwin.
    destruct (updatePushupState_log tpl env s f)
      as [[-> ->] | (_ & _ & Hlog & Hev)].
    { simpl. lia. }
    rewrite Hev, Hlog. unfold dispatch. rewrite Hwin, length_app. reflexivity.
  - intros env s landmarks time Hwin.
    destruct (updateSquatState_log env s landmarks time)
      as [[-> ->] | (Hlog & Hev)].
    { simpl. lia. }
    rewrite Hev, Hlog. unfold dispatch. rewrite Hwin, length_app. reflexivity.
Qed.

Lemma repetition_events_witness :
  completedReps (fst (updateSquatState (mkEnv true 500%Z) risingPage
                        straightLegs 9))
  = completedReps risingPage ++ [mkCompletedRep [] (Val 100)]
  /\ squatCompleted 1 500%Z
     = squatCompleted (length (completedReps risingPage) + 1)
                      (dateNow (mkEnv true 500%Z))
  /\ eventScore (squatCompleted 1 500%Z) = None
  /\ snd (updateSquatState (mkEnv true 500%Z) risingPage straightLegs 9)
     = [squatCompleted 1 500%Z].
Proof.
  apply (proj1 (proj2 repetition_events) (mkEnv true 500%Z) risingPage
           straightLegs 9 (squatCompleted 1 500%Z)).
  rewrite risingPage_event. left. reflexivity.
Defined.

End Events.

(** ** More on the angle helpers and the extractor *)

Section AngleFeatures.


(** The angle at [b] does not depend on the order of the two outer points,
    nor on where the three points lie in the image: [angleDegrees] reads
    only the two difference vectors. *)
Theorem angleDegrees_symmetric_and_translation_invariant
  (a b c : Landmark) (dx dy dz : R) :
  angleDegrees c b a = angleDegrees a b c
  /\ angleDegrees (translate dx dy dz a) (translate dx dy dz b)
                  (translate dx dy dz c)
     = angleDegrees a b c.
Proof.
  split.
  - unfold angleDegrees. rewrite orb_comm.
    destruct (eqb _ 0 || eqb _ 0); [reflexivity |].
    rewrite (Rmult_comm (Math_hypot (x c - x b) (y c - y b))).
    replace ((x c - x b) * (x a - x b) + (y c - y b) * (y a - y b))
      with ((x a - x b) * (x c - x b) + (y a - y b) * (y c - y b)) by ring.
    reflexivity.
  - unfold angleDegrees, translate. cbn [x y].
    replace (x a + dx - (x b + dx)) with (x a - x b) by ring.
    replace (y a + dy - (y b + dy)) with (y a - y b) by ring.
    replace (x c + dx - (x b + dx)) with (x c - x b) by ring.
    replace (y c + dy - (y b + dy)) with (y c - y b) by ring.
    reflexivity.
Qed.








Lemma extractFrameFeatures_TypeError_cases (landmarks : list Landmark) (time : R) :
  extractFrameFeatures landmarks time = TypeError
  <-> MIN_VIS_BODY <= avgVisOf (pushupKeyJoints landmarks)
      /\ In None (pushupKeyJoints landmarks).
Proof.
  unfold extractFrameFeatures.
  set (avgVis := avgVisOf (pushupKeyJoints landmarks)).
  destruct (geb avgVis MIN_VIS_BODY) eqn:Hgate; cbn [negb].
  - apply geb_true_iff in Hgate. unfold pushupKeyJoints.
    destruct (at_index landmarks L_SHOULDER), (at_index landmarks L_ELBOW),
      (at_index landmarks L_WRIST), (at_index landmarks R_SHOULDER),
      (at_index landmarks R_ELBOW), (at_index landmarks R_WRIST),
      (at_index landmarks L_HIP), (at_index landmarks L_ANKLE),
      (at_index landmarks R_HIP), (at_index landmarks R_ANKLE);
      cbn [angleDegrees_at In];
      (split;
       [ intros H;
         first [ discriminate H
               | split; [exact Hgate |];
                 repeat (first [left; reflexivity | right]) ]
       | intros [_ H]; first [reflexivity | intuition discriminate] ]).
  - apply geb_false_iff in Hgate. split; [discriminate |]. intros [H _]. lra.
Qed.

(** [extractFrameFeatures] throws exactly when the visibility gate passes
    and one of the ten key joints is missing from the pose: below the gate
    it returns without reading a joint, and with all ten joints it always
    returns. *)
Theorem extractFrameFeatures_throws_iff (landmarks : list Landmark) (time : R) :
  extractFrameFeatures landmarks time = TypeError
  <-> MIN_VIS_BODY <= avgVisOf (pushupKeyJoints landmarks)
      /\ In None (pushupKeyJoints landmarks).
Proof. apply extractFrameFeatures_TypeError_cases. Qed.

Lemma extractFrameFeatures_throws_iff_witness :
  extractFrameFeatures (repeat (mkLandmark (1 / 2) (1 / 2) 0 (Some (9 / 10))) 12)
                       0 = TypeError.
Proof.
  apply (proj2 (extractFrameFeatures_throws_iff
                  (repeat (mkLandmark (1 / 2) (1 / 2) 0 (Some (9 / 10))) 12) 0)).
  split.
  - unfold avgVisOf, MIN_VIS_BODY. simpl. lra.
  - simpl. auto.
Defined.

End AngleFeatures.

(** ** More on the validator, the scorer and the resampling *)

Section ValidatorScorer.

Lemma repIsValid_cases (buffer : list RepFeature) :
  (pushupAccepted (elbowAngles buffer) /\ repIsValid buffer = true)
  \/ (~ pushupAccepted (elbowAngles buffer) /\ repIsValid buffer = false).
Proof.
  unfold repIsValid, pushupAccepted.
  destruct (elbowAngles buffer) as [| a rest].
  { right. split; [| reflexivity]. intros [H _]. simpl in H. lia. }
  unfold MIN_VALID_FRAMES_PER_REP.
  destruct (length (a :: rest) <? 6)%nat eqn:Hlen.
  { right. split; [| reflexivity]. apply Nat.ltb_lt in Hlen.
    intros [H _]. lia. }
  apply Nat.ltb_ge in Hlen.
  pose proof (Math_min_of_isMin a rest) as Hmin.
  pose proof (Math_max_of_isMax a rest) as Hmax.
  unfold MIN_ANGLE_DELTA, ELBOW_BOTTOM_ANGLE, BOTTOM_ANGLE_MARGIN.
  destruct (ltb (Math_max_of a rest - Math_min_of a rest) 40) eqn:Hrange.
  { right. split; [| reflexivity]. apply ltb_true_iff in Hrange.
    intros (_ & lo & hi & Hlo & Hhi & Hr & _).
    rewrite (isMin_unique _ _ _ Hlo Hmin) in Hr.
    rewrite (isMax_unique _ _ _ Hhi Hmax) in Hr. lra. }
  apply ltb_false_iff in Hrange.
  destruct (leb (Math_min_of a rest) (90 + 10)) eqn:Hlo.
  - left. apply leb_true_iff in Hlo. split; [| reflexivity].
    split; [exact Hlen |].
    exists (Math_min_of a rest), (Math_max_of a rest).
    split; [exact Hmin |]. split; [exact Hmax |]. split; lra.
  - right. apply leb_false_iff in Hlo. split; [| reflexivity].
    intros (_ & lo & hi & Hlo' & _ & _ & Hb).
    rewrite (isMin_unique _ _ _ Hlo' Hmin) in Hb. lra.
Qed.




Lemma clamp_ge (lo hi v m : R) : m <= hi -> m <= v -> m <= clamp lo hi v.
Proof.
  intros Hhi Hv. unfold clamp, Math_max, Math_min.
  apply Rle_trans with (Rmin hi v).
  - apply Rmin_glb; assumption.
  - apply Rmax_r.
Qed.

Lemma scoreRules_valid_lower (buffer : list RepFeature) :
  repIsValid buffer = true -> hipAngles buffer <> [] ->
  35 <= scoreRules buffer.
Proof.
  intros Hvalid Hhip.
  destruct (repIsValid_cases buffer) as [[Hacc _] | [_ Hv]]; [| congruence].
  unfold scoreRules.
  destruct (elbowAngles buffer) as [| a rest] eqn:Hea.
  { destruct Hacc as [Hlen _]. simpl in Hlen. lia. }
  destruct (hipAngles buffer) as [| h hrest]; [contradiction |].
  destruct Hacc as (_ & lo & hi & Hlo & Hhi & Hr & _).
  rewrite <- (isMin_unique _ _ _ Hlo (Math_min_of_isMin a rest)).
  rewrite <- (isMax_unique _ _ _ Hhi (Math_max_of_isMax a rest)).
  apply (clamp_ge 0 100); [lra |].
  pose proof (clamp_ge 0 1 ((hi - lo) / 80) (1 / 2) ltac:(lra) ltac:(lra)) as H1.
  pose proof (clamp_bounds 0 1 ((Math_max_of h hrest - 140) / 40) ltac:(lra))
    as H2.
  unfold clamp in H1, H2. lra.
Qed.

(** Under the rule-based strategy an accepted buffer with at least one hip
    angle scores between 35 and 100 (its elbow range of 40 degrees or more
    is worth at least half of the 70 range points); a buffer without any
    hip angle scores 0, accepted or not. *)
Theorem scoreRules_accepted_range (buffer : list RepFeature) :
  (repIsValid buffer = true -> hipAngles buffer <> [] ->
   35 <= scoreRules buffer <= 100)
  /\ (hipAngles buffer = [] -> scoreRules buffer = 0).
Proof.
  split.
  - intros Hvalid Hhip.
    split; [apply scoreRules_valid_lower; assumption | apply scoreRules_range].
  - intros Hhip. unfold scoreRules. rewrite Hhip.
    destruct (elbowAngles buffer); reflexivity.
Qed.

Lemma scoreRules_accepted_range_witness :
  35 <= scoreRules fullPushupBuffer <= 100.
Proof.
  apply (proj1 (scoreRules_accepted_range fullPushupBuffer)).
  - unfold fullPushupBuffer, flatFrame, repIsValid. js_eval. reflexivity.
  - unfold fullPushupBuffer, flatFrame. simpl. discriminate.
Defined.

(** The nearest-neighbour scan keeps a frame of the array and its
    distance to the target. *)
Lemma nearest_fold (tgt : R) (fs : list RepFeature) :
  forall (best : RepFeature) (seen : list RepFeature),
    In best seen ->
    (forall f, In f seen -> Math_abs (t best - tgt) <= Math_abs (t f - tgt)) ->
    let r := fold_left
               (fun (acc : RepFeature * R) (f : RepFeature) =>
                  let dt := Math_abs (t f - tgt) in
                  if ltb dt (snd acc) then (f, dt) else acc)
               fs (best, Math_abs (t best - tgt)) in
    In (fst r) (seen ++ fs)
    /\ forall f, In f (seen ++ fs) ->
                 Math_abs (t (fst r) - tgt) <= Math_abs (t f - tgt).
Proof.
  induction fs as [| g tl IH]; intros best seen Hin Hbest; cbn zeta.
  - rewrite app_nil_r. simpl. auto.
  - cbn [fold_left snd].
    replace (seen ++ g :: tl) with ((seen ++ [g]) ++ tl)
      by (rewrite <- app_assoc; reflexivity).
    destruct (ltb (Math_abs (t g - tgt)) (Math_abs (t best - tgt))) eqn:Hlt.
    + apply ltb_true_iff in Hlt. apply (IH g (seen ++ [g])).
      * apply in_or_app. right. left. reflexivity.
      * intros f Hf. apply in_app_or in Hf. destruct Hf as [Hf | [<- | []]].
        -- specialize (Hbest f Hf). lra.
        -- lra.
    + apply ltb_false_iff in Hlt. apply (IH best (seen ++ [g])).
      * apply in_or_app. left. assumption.
      * intros f Hf. apply in_app_or in Hf. destruct Hf as [Hf | [<- | []]].
        -- apply Hbest. assumption.
        -- assumption.
Qed.

(** [resampleRep] returns no phase for an empty buffer and [phaseCount]
    phases otherwise; every phase holds the angles of a frame of the
    buffer ([0] for a null angle); and the scan behind each phase picks a
    frame whose time is nearest to the target time. *)
Theorem resampleRep_nearest_frames (buffer : list RepFeature) (phaseCount : nat) :
  length (resampleRep buffer phaseCount)
  = match buffer with [] => O | _ :: _ => phaseCount end
  /\ (forall p, In p (resampleRep buffer phaseCount) ->
        exists f, In f buffer
                  /\ elbow p = orElse (elbowAngle f) 0
                  /\ hip p = orElse (hipAngle f) 0)
  /\ (forall f0 rest tgt,
        buffer = f0 :: rest ->
        In (nearest (Val tgt) f0 buffer) buffer
        /\ forall f, In f buffer ->
             Math_abs (t (nearest (Val tgt) f0 buffer) - tgt)
             <= Math_abs (t f - tgt)).
Proof.
  assert (Hnear : forall f0 rest tgt,
             buffer = f0 :: rest ->
             In (nearest (Val tgt) f0 buffer) buffer
             /\ forall f, In f buffer ->
                  Math_abs (t (nearest (Val tgt) f0 buffer) - tgt)
                  <= Math_abs (t f - tgt)).
  { intros f0 rest tgt ->. unfold nearest.
    pose proof (nearest_fold tgt rest f0 [f0] (or_introl eq_refl)) as H.
    cbn [fold_left snd].
    assert (Hself : ltb (Math_abs (t f0 - tgt)) (Math_abs (t f0 - tgt)) = false)
      by (apply ltb_false_iff; lra).
    rewrite Hself. apply H.
    intros f [<- | []]. lra. }
  split; [| split; [| exact Hnear]].
  - unfold resampleRep. destruct buffer as [| f0 rest]; [reflexivity |].
    rewrite length_map, length_seq. reflexivity.
  - intros p Hp. unfold resampleRep in Hp.
    destruct buffer as [| f0 rest] eqn:Hbuf; [contradiction |].
    apply in_map_iff in Hp. destruct Hp as (i & <- & _).
    cbn [elbow hip].
    match goal with
    | |- context [nearest ?target f0 (f0 :: rest)] =>
      exists (nearest target f0 (f0 :: rest)); split; [| split; reflexivity];
      destruct target as [| tgt]
    end.
    + left. reflexivity.
    + apply (Hnear f0 rest tgt eq_refl).
Qed.

Lemma resampleRep_nearest_frames_witness :
  In (nearest (Val 4) (flatFrame 2 169 175) fullPushupBuffer) fullPushupBuffer
  /\ forall f, In f fullPushupBuffer ->
       Math_abs (t (nearest (Val 4) (flatFrame 2 169 175) fullPushupBuffer) - 4)
       <= Math_abs (t f - 4).
Proof.
  apply (proj2 (proj2 (resampleRep_nearest_frames fullPushupBuffer 5))
           (flatFrame 2 169 175) (tl fullPushupBuffer) 4).
  reflexivity.
Defined.

End ValidatorScorer.

(** ** More on the push-up state machine *)

Section PushupMachineMore.

Lemma atTopFrame_intro (f : FrameFeatures) (e h shY hpY : R) :
  elbowAngle f = Some e -> hipAngle f = Some h ->
  shoulderY f = Some shY -> hipY f = Some hpY ->
  negb (leb (Math_abs (shY - hpY)) HORIZONTAL_BODY_MAX_DELTA_Y) = false ->
  geb e ELBOW_TOP_ANGLE && geb h HIP_STRAIGHT_ANGLE = true ->
  atTopFrame f = true.
Proof.
  intros He Hh Hs Hp Hpos Htop. unfold atTopFrame.
  rewrite He, Hh, Hs, Hp. apply negb_false_iff in Hpos.
  rewrite Hpos. exact Htop.
Qed.

Lemma lastCorrectness_snoc (log : list CompletedRep) (r : CompletedRep) :
  lastCorrectness (log ++ [r]) = Some (correctness r).
Proof. unfold lastCorrectness. rewrite rev_unit. reflexivity. Qed.

(** One frame moves the push-up machine along an edge of its cycle only;
    it appends to the log, or fires an event, only when it is an "at top"
    frame that takes the machine from [GOING_UP] to [AT_TOP]. *)
Theorem updatePushupState_edges (tpl : option PushupTemplate) (env : Env)
  (s : PageState) (f : FrameFeatures) :
  let s' := fst (updatePushupState tpl env s f) in
  pushupEdge (pushupState s) (pushupState s') = true
  /\ (completedReps s' <> completedReps s
      \/ snd (updatePushupState tpl env s f) <> [] ->
      pushupState s = GOING_UP /\ pushupState s' = AT_TOP
      /\ atTopFrame f = true).
Proof.
  destruct s as [ps ls cr log bh ts ss sa sts lrs lbl spd ui].
  unfold updatePushupState. cbn [pushupState].
  destruct (elbowAngle f) as [e |] eqn:He, (hipAngle f) as [h |] eqn:Hh;
    [| destruct ps; cbn; split; try reflexivity; intros [H | H]; congruence ..].
  destruct (shoulderY f) as [shY |] eqn:Hs, (hipY f) as [hpY |] eqn:Hp;
    [| destruct ps; cbn; split; try reflexivity; intros [H | H]; congruence ..].
  destruct (negb (leb _ _)) eqn:Hpos.
  { destruct ps; cbn; split; try reflexivity; intros [H | H]; congruence. }
  pose proof (atTopFrame_intro f e h shY hpY He Hh Hs Hp Hpos) as Htopf.
  destruct (geb e ELBOW_TOP_ANGLE && geb h HIP_STRAIGHT_ANGLE) eqn:Htop;
    destruct (leb e ELBOW_BOTTOM_ANGLE) eqn:Hbot;
    destruct ps; cbn -[Nat.leb closePushupRep];
    repeat match goal with
           | |- context [if ?b then _ else _] => destruct b; cbn -[Nat.leb]
           end;
    try (split; [reflexivity | intros [H | H]; congruence]).
  all: unfold closePushupRep; cbn [currentRep set_currentRep];
    destruct (repIsValid (cr ++ [f])); cbn [fst snd];
    rewrite seedBaseline_pushupState; cbn;
    (split; [reflexivity |]); intros _;
    (split; [reflexivity |]); (split; [reflexivity |]);
    exact (Htopf eq_refl).
Qed.

Lemma gatedFrame_posture (f : FrameFeatures) (e h : R) :
  gatedFrame f e h ->
  exists shY hpY,
    shoulderY f = Some shY /\ hipY f = Some hpY
    /\ negb (leb (Math_abs (shY - hpY)) HORIZONTAL_BODY_MAX_DELTA_Y) = false.
Proof.
  intros (_ & _ & shY & hpY & Hs & Hp & Hd). exists shY, hpY.
  split; [exact Hs |]. split; [exact Hp |].
  apply negb_false_iff. apply leb_true_iff. exact Hd.
Qed.

(** The hysteresis bands.  For a frame that passes the guards: [AT_TOP]
    is left for [GOING_DOWN] exactly when the elbow angle is below 155
    (between 155 and 160 the machine stays), and [AT_BOTTOM] is left for
    [GOING_UP] exactly when the elbow angle is above 95 (between 90 and 95
    it stays); in both states the frame is appended to the buffer. *)
Theorem updatePushupState_hysteresis (tpl : option PushupTemplate) (env : Env)
  (s : PageState) (f : FrameFeatures) (elbowA hipA : R) :
  gatedFrame f elbowA hipA ->
  let s' := fst (updatePushupState tpl env s f) in
  (pushupState s = AT_TOP ->
   pushupState s' = (if ltb elbowA 155 then GOING_DOWN else AT_TOP)
   /\ currentRep s' = currentRep s ++ [f])
  /\ (pushupState s = AT_BOTTOM ->
      pushupState s' = (if gtb elbowA 95 then GOING_UP else AT_BOTTOM)
      /\ currentRep s' = currentRep s ++ [f]).
Proof.
  intros Hg. destruct (gatedFrame_posture f elbowA hipA Hg)
    as (shY & hpY & Hs & Hp & Hpos).
  destruct Hg as (He & Hh & _).
  destruct s as [ps ls cr log bh ts ss sa sts lrs lbl spd ui].
  unfold updatePushupState. cbn [pushupState currentRep].
  rewrite He, Hh, Hs, Hp, Hpos.
  unfold ELBOW_TOP_ANGLE, ELBOW_BOTTOM_ANGLE, HIP_STRAIGHT_ANGLE.
  replace (160 - 5) with 155 by lra. replace (90 + 5) with 95 by lra.
  split; intros ->.
  - destruct (ltb elbowA 155) eqn:Hlt.
    + apply ltb_true_iff in Hlt.
      rewrite (proj2 (geb_false_iff elbowA 160)) by lra. cbn. auto.
    + rewrite andb_false_r. cbn. auto.
  - destruct (gtb elbowA 95) eqn:Hgt.
    + apply gtb_true_iff in Hgt.
      rewrite (proj2 (leb_false_iff elbowA 90)) by lra. cbn. auto.
    + rewrite andb_false_r. cbn. auto.
Qed.

Lemma updatePushupState_hysteresis_witness :
  pushupState (fst (updatePushupState None (mkEnv true 0%Z) midRepPage
                      (flatFrame 1 157 175))) = AT_TOP
  /\ currentRep (fst (updatePushupState None (mkEnv true 0%Z) midRepPage
                        (flatFrame 1 157 175)))
     = currentRep midRepPage ++ [flatFrame 1 157 175].
Proof.
  assert (Hg : gatedFrame (flatFrame 1 157 175) 157 175).
  { split; [reflexivity |]. split; [reflexivity |].
    exists (1 / 2), (1 / 2). split; [reflexivity |]. split; [reflexivity |].
    unfold HORIZONTAL_BODY_MAX_DELTA_Y. rewrite Rabs_right by lra. lra. }
  pose proof (proj1 (updatePushupState_hysteresis None (mkEnv true 0%Z)
                       midRepPage (flatFrame 1 157 175) 157 175 Hg) eq_refl)
    as H.
  rewrite (proj2 (ltb_false_iff 157 155)) in H by lra. exact H.
Defined.

End PushupMachineMore.

(** ** Invariants of a push-up session *)

Section PushupSession.

(** What the session keeps from frame to frame. *)
Lemma updatePushupState_session (tpl : option PushupTemplate) (env : Env)
  (s : PageState) (f : FrameFeatures) :
  pushupCoherent s -> logCoherent s ->
  Forall (validLogEntry tpl) (completedReps s) ->
  let s' := fst (updatePushupState tpl env s f) in
  pushupCoherent s' /\ logCoherent s'
  /\ Forall (validLogEntry tpl) (completedReps s').
Proof.
  destruct s as [ps ls cr log bh ts ss sa sts lrs lbl spd ui].
  unfold pushupCoherent, logCoherent. cbn [pushupState currentRep topStreak
    startingPositionDetected lastState currentStateLabel uiRepCount
    completedReps lastRepScore].
  intros Hco [Hui Hlast] Hlog.
  unfold updatePushupState. cbn [pushupState].
  destruct (elbowAngle f) as [e |] eqn:He, (hipAngle f) as [h |] eqn:Hh;
    [| destruct ps; cbn in *; intuition lia ..].
  destruct (shoulderY f) as [shY |] eqn:Hs, (hipY f) as [hpY |] eqn:Hp;
    [| destruct ps; cbn in *; intuition lia ..].
  destruct (negb (leb _ _)) eqn:Hpos.
  { destruct ps; cbn in *; intuition lia. }
  pose proof (atTopFrame_intro f e h shY hpY He Hh Hs Hp Hpos) as Htopf.
  destruct (geb e ELBOW_TOP_ANGLE && geb h HIP_STRAIGHT_ANGLE) eqn:Htop;
    destruct (leb e ELBOW_BOTTOM_ANGLE) eqn:Hbot;
    destruct ps; cbn -[Nat.leb closePushupRep] in Hco |- *;
    repeat match goal with
           | |- context [if (?a <=? ?b)%nat then _ else _] =>
             destruct (a <=? b)%nat eqn:Hstreak;
             [apply Nat.leb_le in Hstreak | apply Nat.leb_gt in Hstreak];
             cbn -[Nat.leb closePushupRep]
           | |- context [if ?b then _ else _] =>
             destruct b; cbn -[Nat.leb closePushupRep]
           end;
    try (destruct Hco as ((f0 & rest & -> & Hf0) & Hts & Hls & Hlbl & Hspd));
    try (destruct Hco as (Hcr & Hts & Hspd));
    unfold START_TOP_STREAK in *;
    try (repeat split; try assumption; try reflexivity; try lia;
         try (eexists; eexists; split; [reflexivity | auto]); fail).
  all: specialize (Htopf eq_refl).
  all: unfold closePushupRep; cbn [currentRep set_currentRep];
    destruct (repIsValid ((f0 :: rest) ++ [f])) eqn:Hvalid; cbn [fst snd];
    unfold seedBaseline; cbn;
    destruct bh; try destruct (headY f); cbn.
  all: split;
    [ split; [exists f, []; split; [reflexivity | exact Htopf] |];
      repeat split; assumption || reflexivity
    | split ].
  all: try (split; [rewrite ?length_app; cbn; lia
                   | rewrite ?lastCorrectness_snoc; reflexivity || assumption]).
  all: try assumption.
  all: apply Forall_app; split; [assumption |];
    apply Forall_cons; [| apply Forall_nil];
    unfold validLogEntry; cbn [features correctness];
    split; [exact Hvalid |]; split; [reflexivity |];
    split; [exists f0, (rest ++ [f]); split; [reflexivity | exact Hf0]
           | exists (f0 :: rest), f; split; [reflexivity | exact Htopf]].
Qed.

Lemma runPushups_session (tpl : option PushupTemplate)
  (frames : list (Env * FrameFeatures)) :
  forall s,
    pushupCoherent s -> logCoherent s ->
    Forall (validLogEntry tpl) (completedReps s) ->
    let s' := fst (runPushups tpl s frames) in
    pushupCoherent s' /\ logCoherent s'
    /\ Forall (validLogEntry tpl) (completedReps s').
Proof.
  induction frames as [| [env f] rest IH]; intros s Hco Hlc Hlog; cbn zeta.
  - simpl. auto.
  - cbn [runPushups].
    destruct (updatePushupState_session tpl env s f Hco Hlc Hlog)
      as (H1 & H2 & H3).
    destruct (updatePushupState tpl env s f) as [s1 ev1]. cbn [fst] in *.
    specialize (IH s1 H1 H2 H3). cbv zeta in IH.
    destruct (runPushups tpl s1 rest) as [s2 ev2]. exact IH.
Qed.

Lemma initialPage_session (tpl : option PushupTemplate) :
  pushupCoherent initialPage /\ logCoherent initialPage
  /\ Forall (validLogEntry tpl) (completedReps initialPage).
Proof.
  unfold pushupCoherent, logCoherent, initialPage. cbn.
  repeat split; try lia. constructor.
Qed.

(** After any sequence of push-up frames the refs agree with the state of
    the machine: while it waits the buffer is empty and the start streak
    is below 3; otherwise the buffer starts with an "at top" frame, the
    streak is 3, and [lastState], the state label and the start flag show
    the state.  The UI count is the length of the log and the UI score is
    the correctness logged last. *)
Theorem pushup_session_coherent (tpl : option PushupTemplate)
  (frames : list (Env * FrameFeatures)) :
  pushupCoherent (fst (runPushups tpl initialPage frames))
  /\ logCoherent (fst (runPushups tpl initialPage frames)).
Proof.
  destruct (initialPage_session tpl) as (H1 & H2 & H3).
  destruct (runPushups_session tpl frames initialPage H1 H2 H3) as (G1 & G2 & _).
  split; assumption.
Qed.

(** Every repetition in the log of a push-up session was accepted by the
    validator, carries the score of its own buffer, and its buffer starts
    and ends with an "at top" frame. *)
Theorem pushup_session_log_valid (tpl : option PushupTemplate)
  (frames : list (Env * FrameFeatures)) :
  Forall (validLogEntry tpl)
         (completedReps (fst (runPushups tpl initialPage frames))).
Proof.
  destruct (initialPage_session tpl) as (H1 & H2 & H3).
  destruct (runPushups_session tpl frames initialPage H1 H2 H3) as (_ & _ & G).
  exact G.
Qed.

End PushupSession.

(** ** The events of a push-up session *)

Section PushupEvents.

Lemma nonNull_app {A : Type} (l1 l2 : list (option A)) :
  nonNull (l1 ++ l2) = nonNull l1 ++ nonNull l2.
Proof.
  induction l1 as [| [v |] tl IH]; simpl; [reflexivity | f_equal |]; exact IH.
Qed.

Lemma runPushups_log_and_events (tpl : option PushupTemplate)
  (frames : list (Env * FrameFeatures)) :
  forall s,
    Forall (fun ef => hasWindow (fst ef) = true) frames ->
    exists added,
      completedReps (fst (runPushups tpl s frames)) = completedReps s ++ added
      /\ map eventRepCount (snd (runPushups tpl s frames))
         = map Some (seq (length (completedReps s) + 1) (length added))
      /\ map eventScore (snd (runPushups tpl s frames))
         = map (fun rep => Some (correctness rep)) added.
Proof.
  induction frames as [| [env f] rest IH]; intros s Hwin.
  - exists []. simpl. rewrite app_nil_r. auto.
  - inversion Hwin as [| ? ? Hw Hrest]; subst. cbn [fst] in Hw.
    cbn [runPushups].
    pose proof (updatePushupState_log tpl env s f) as Hstep. cbv zeta in Hstep.
    destruct (updatePushupState tpl env s f) as [s1 ev1]. cbn [fst snd] in Hstep.
    destruct (IH s1 Hrest) as (added & Hlog & Hcnt & Hsc).
    destruct (runPushups tpl s1 rest) as [s2 ev2]. cbn [fst snd] in *.
    destruct Hstep as [[Hsame ->] | (_ & _ & Hgrow & ->)].
    + exists added. rewrite <- Hsame. auto.
    + exists (mkCompletedRep (currentRep s ++ [f])
                             (scoreRep tpl (currentRep s ++ [f])) :: added).
      unfold dispatch. rewrite Hw. rewrite Hgrow in *.
      rewrite length_app in *. cbn [length app map eventRepCount eventScore
        correctness seq] in *.
      split; [rewrite Hlog, <- app_assoc; reflexivity |].
      split.
      * rewrite Hcnt. f_equal. do 2 f_equal. lia.
      * rewrite Hsc. reflexivity.
Qed.

(** Over a run of push-up frames in a browser the log only grows, the
    run fires one event per repetition it appends, in order; the events
    count on from the length of the log, one by one, and each carries the
    correctness logged for its repetition. *)
Theorem runPushups_events_numbered (tpl : option PushupTemplate)
  (s : PageState) (frames : list (Env * FrameFeatures)) :
  Forall (fun ef => hasWindow (fst ef) = true) frames ->
  exists added,
    completedReps (fst (runPushups tpl s frames)) = completedReps s ++ added
    /\ map eventRepCount (snd (runPushups tpl s frames))
       = map Some (seq (length (completedReps s) + 1) (length added))
    /\ map eventScore (snd (runPushups tpl s frames))
       = map (fun rep => Some (correctness rep)) added.
Proof. apply runPushups_log_and_events. Qed.

Lemma runPushups_events_numbered_witness :
  exists added,
    completedReps (fst (runPushups None initialPage fullPushup))
    = completedReps initialPage ++ added
    /\ map eventRepCount (snd (runPushups None initialPage fullPushup))
       = map Some (seq (length (completedReps initialPage) + 1) (length added))
    /\ map eventScore (snd (runPushups None initialPage fullPushup))
       = map (fun rep => Some (correctness rep)) added.
Proof.
  apply (runPushups_events_numbered None initialPage fullPushup).
  unfold fullPushup, at_ms. repeat constructor.
Defined.

Lemma updatePushupState_rule_event (env : Env) (s : PageState)
  (f : FrameFeatures) (ev : Event) :
  In ev (snd (updatePushupState None env s f)) ->
  exists sc, eventScore ev = Some (Val sc) /\ 35 <= sc <= 100.
Proof.
  intros Hin.
  destruct (hipAngle f) as [h |] eqn:Hh.
  2:{ destruct (updatePushupState_partial_frame None env s f) as (_ & _ & _ & He).
      - unfold fullyAngled. rewrite Hh. tauto.
      - rewrite He in Hin. contradiction. }
  destruct (updatePushupState_log None env s f)
    as [[_ Hnone] | (_ & Hvalid & _ & Hev)].
  { rewrite Hnone in Hin. contradiction. }
  rewrite Hev in Hin. unfold dispatch in Hin.
  destruct (hasWindow env); [| contradiction].
  destruct Hin as [<- | []]. cbn [eventScore scoreRep].
  eexists. split; [reflexivity |].
  split; [| apply scoreRules_range].
  apply scoreRules_valid_lower; [exact Hvalid |].
  unfold hipAngles. rewrite map_app, nonNull_app. cbn [map nonNull].
  rewrite Hh. intros H. apply app_eq_nil in H. destruct H as [_ H]. discriminate.
Qed.

(** Without a template, every event that a run of push-up frames fires,
    from whatever state, carries a score between 35 and 100: the closing
    frame has a hip angle, and the accepted buffer has an elbow range of
    at least 40 degrees. *)
Theorem rule_based_events_score_range (s : PageState)
  (frames : list (Env * FrameFeatures)) (ev : Event) :
  In ev (snd (runPushups None s frames)) ->
  exists sc, eventScore ev = Some (Val sc) /\ 35 <= sc <= 100.
Proof.
  revert s. induction frames as [| [env f] rest IH]; intros s Hin.
  - contradiction.
  - cbn [runPushups] in Hin.
    pose proof (updatePushupState_rule_event env s f ev) as Hstep.
    destruct (updatePushupState None env s f) as [s1 ev1].
    specialize (IH s1).
    destruct (runPushups None s1 rest) as [s2 ev2]. cbn [fst snd] in *.
    apply in_app_or in Hin. destruct Hin as [Hin | Hin]; auto.
Qed.

Lemma rule_based_events_score_range_witness :
  exists sc,
    eventScore (pushupCompleted (Val (385 / 4)) 1 233%Z) = Some (Val sc)
    /\ 35 <= sc <= 100.
Proof.
  apply (rule_based_events_score_range initialPage fullPushup).
  rewrite fullPushup_rules. left. reflexivity.
Defined.

End PushupEvents.

(** ** More on the squat state machine *)

Section SquatMachineMore.

Ltac squat_edge_done :=
  (split; [reflexivity |]);
  (split; [intros Hw; first [exact Hw | discriminate] |]);
  (split; [ intros [Hc | Hc]; first [congruence | split; reflexivity]
          | repeat split ]).

(** One frame moves the squat machine along an edge of its cycle only,
    and never back to [WAITING_FOR_START]; it appends to the log, or fires
    an event, only when it takes the machine from [GOING_UP] to
    [STANDING]; and it leaves the refs of the push-up machine alone. *)
Theorem updateSquatState_edges (env : Env) (s : PageState)
  (landmarks : list Landmark) (time : R) :
  let s' := fst (updateSquatState env s landmarks time) in
  squatEdge (squatState s) (squatState s') = true
  /\ (squatState s <> SQ_WAITING_FOR_START ->
      squatState s' <> SQ_WAITING_FOR_START)
  /\ (completedReps s' <> completedReps s
      \/ snd (updateSquatState env s landmarks time) <> [] ->
      squatState s = SQ_GOING_UP /\ squatState s' = SQ_STANDING)
  /\ (pushupState s' = pushupState s /\ currentRep s' = currentRep s
      /\ topStreak s' = topStreak s /\ lastState s' = lastState s
      /\ baselineHeadY s' = baselineHeadY s
      /\ currentStateLabel s' = currentStateLabel s
      /\ startingPositionDetected s' = startingPositionDetected s).
Proof.
  destruct s as [ps ls cr log bh ts ss sa sts lrs lbl spd ui].
  unfold updateSquatState. cbn [squatState].
  destruct (ltb _ _).
  { destruct ss; cbn; squat_edge_done. }
  destruct (squatKneeAngle landmarks) as [k |];
    [| destruct ss; cbn; squat_edge_done].
  destruct (geb k SQUAT_KNEE_TOP_ANGLE); destruct (leb k SQUAT_KNEE_BOTTOM_ANGLE);
    destruct ss; cbn -[Nat.leb closeSquatRep];
    repeat match goal with
           | |- context [if ?b then _ else _] =>
             destruct b; cbn -[Nat.leb closeSquatRep]
           end;
    try squat_edge_done.
  all: match goal with
       | |- context [closeSquatRep ?e ?s0] =>
         destruct (closeSquatRep_cases e s0) as [[_ ->] | [_ ->]]
       end; unfold acceptSquat; cbn; squat_edge_done.
Qed.




End SquatMachineMore.

(** ** The frame callback *)

Section FrameCallback.

Lemma recordDebugFrame_lastN (buf : list DebugFrame) (d : DebugFrame) :
  (length buf <= 50)%nat ->
  recordDebugFrame buf d = lastN 50 (buf ++ [d])
  /\ (length (recordDebugFrame buf d) <= 50)%nat.
Proof.
  intros Hlen. unfold recordDebugFrame, lastN.
  rewrite length_app. cbn [length].
  destruct (50 <? length buf + 1)%nat eqn:Hfull.
  - apply Nat.ltb_lt in Hfull.
    assert (Hl : length buf = 50%nat) by lia.
    replace (length buf + 1 - 50)%nat with 1%nat by lia.
    split; [reflexivity |].
    destruct buf as [| b0 more]; [simpl in Hl; lia |].
    simpl in Hl |- *. rewrite length_app. simpl. lia.
  - apply Nat.ltb_ge in Hfull.
    replace (length buf + 1 - 50)%nat with O by lia.
    split; [reflexivity |]. rewrite length_app. simpl. lia.
Qed.

Lemma lastN_app_lastN {A : Type} (n : nat) (l m : list A) :
  lastN n (lastN n l ++ m) = lastN n (l ++ m).
Proof.
  unfold lastN.
  rewrite !length_app, length_skipn, !skipn_app, length_skipn, skipn_skipn.
  f_equal; f_equal; lia.
Qed.

(** The debug frame that a push-up frame records. *)
Lemma onResults_pushups (tpl : option PushupTemplate) (env : Env)
  (rt rt' : Runtime) (poses : list (list Landmark)) (time : R)
  (evs : list Event) :
  onResults PUSHUPS tpl env rt poses time = Normal (rt', evs) ->
  match poses with
  | [] => rt' = rt
  | firstPose :: _ =>
    exists d,
      debugFrames rt' = recordDebugFrame (debugFrames rt) d
      /\ debug_t d = time /\ debug_landmarks d = firstPose
      /\ debug_state d = pushupState (page rt')
      /\ extractFrameFeatures firstPose time = Normal (debug_features d)
  end.
Proof.
  unfold onResults. destruct poses as [| firstPose others].
  - intros H. injection H as <- _. reflexivity.
  - destruct (extractFrameFeatures firstPose time) as [ff |]; [| discriminate].
    destruct (updatePushupState tpl env (page rt) ff) as [pg events].
    intros H. injection H as <- _. eexists. cbn. repeat split.
Qed.

(** In push-up mode the debug buffer never holds more than 50 frames,
    and after a run it holds the last 50 of the frames recorded so far:
    one per processed pose, in arrival order, each with the video time
    and the landmarks of its pose. *)
Theorem debugFrames_last_50 (tpl : option PushupTemplate)
  (results : list PoseResult) :
  forall (rt rt' : Runtime) (evs : list Event),
    (length (debugFrames rt) <= 50)%nat ->
    runResults PUSHUPS tpl rt results = Normal (rt', evs) ->
    (length (debugFrames rt') <= 50)%nat
    /\ exists recorded,
         debugFrames rt' = lastN 50 (debugFrames rt ++ recorded)
         /\ map (fun d => (debug_t d, debug_landmarks d)) recorded
            = processedPoses results.
Proof.
  induction results as [| r rest IH]; intros rt rt' evs Hlen Hrun.
  - cbn in Hrun. injection Hrun as <- _. split; [assumption |].
    exists []. rewrite app_nil_r. unfold lastN.
    replace (length (debugFrames rt) - 50)%nat with O by lia.
    split; reflexivity.
  - cbn [runResults] in Hrun.
    destruct (onResults PUSHUPS tpl (result_env r) rt (result_landmarks r)
                (result_time r)) as [[rt1 ev1] |] eqn:Hstep; [| discriminate].
    destruct (runResults PUSHUPS tpl rt1 rest) as [[rt2 ev2] |] eqn:Hrest;
      [| discriminate].
    injection Hrun as <- _.
    apply onResults_pushups in Hstep.
    unfold processedPoses. cbn [flat_map].
    destruct (result_landmarks r) as [| firstPose others].
    + subst rt1. apply (IH rt rt2 ev2 Hlen Hrest).
    + destruct Hstep as (d & Hd & Ht & Hl & _).
      destruct (recordDebugFrame_lastN (debugFrames rt) d Hlen) as [Heq Hlen1].
      rewrite <- Hd in Heq, Hlen1.
      destruct (IH rt1 rt2 ev2 Hlen1 Hrest) as (Hlen2 & recorded & Hrec & Hmap).
      split; [exact Hlen2 |].
      exists (d :: recorded). split.
      * rewrite Hrec, Heq, lastN_app_lastN, <- app_assoc. reflexivity.
      * cbn [map app]. rewrite Ht, Hl, Hmap. reflexivity.
Qed.

Lemma extract_blindPose :
  extractFrameFeatures (uniformPose (3 / 10) (1 / 10)) 7
  = Normal (mkFrameFeatures 7 None None (Some (3 / 10))
              (Some ((3 / 10 + 3 / 10) / 2)) (Some ((3 / 10 + 3 / 10) / 2))).
Proof.
  unfold extractFrameFeatures.
  rewrite (proj2 (geb_false_iff _ _))
    by (unfold avgVisOf, MIN_VIS_BODY; simpl; lra).
  reflexivity.
Qed.

Lemma blindResult_run :
  exists rt' evs,
    runResults PUSHUPS None initialRuntime [blindResult] = Normal (rt', evs).
Proof.
  unfold runResults, onResults, blindResult.
  cbn [result_landmarks result_time result_env].
  rewrite extract_blindPose. cbn. eexists. eexists. reflexivity.
Qed.

Lemma debugFrames_last_50_witness :
  exists rt' evs,
    runResults PUSHUPS None initialRuntime [blindResult] = Normal (rt', evs)
    /\ (length (debugFrames rt') <= 50)%nat
    /\ exists recorded,
         debugFrames rt' = lastN 50 (debugFrames initialRuntime ++ recorded)
         /\ map (fun d => (debug_t d, debug_landmarks d)) recorded
            = processedPoses [blindResult].
Proof.
  destruct blindResult_run as (rt' & evs & Hrun). exists rt', evs.
  split; [exact Hrun |].
  apply (debugFrames_last_50 None [blindResult] initialRuntime rt' evs);
    [simpl; lia | exact Hrun].
Defined.

Lemma onResults_no_throw (excType : ExerciseType)
  (tpl : option PushupTemplate) (env : Env) (rt : Runtime)
  (poses : list (list Landmark)) (time : R) :
  (excType = PUSHUPS ->
   match poses with
   | [] => True
   | firstPose :: _ =>
     avgVisOf (pushupKeyJoints firstPose) < MIN_VIS_BODY
     \/ ~ In None (pushupKeyJoints firstPose)
   end) ->
  exists rt' evs, onResults excType tpl env rt poses time = Normal (rt', evs).
Proof.
  intros Hok. unfold onResults.
  destruct poses as [| firstPose others]; [eexists; eexists; reflexivity |].
  destruct excType.
  - specialize (Hok eq_refl).
    destruct (extractFrameFeatures firstPose time) as [ff |] eqn:Hext.
    + destruct (updatePushupState tpl env (page rt) ff).
      eexists; eexists; reflexivity.
    + apply extractFrameFeatures_TypeError_cases in Hext.
      destruct Hext as [Hgate Hmissing]. destruct Hok as [Hlow | Hall];
        [lra | contradiction].
  - destruct (updateSquatState env (page rt) firstPose time).
    eexists; eexists; reflexivity.
  - eexists; eexists; reflexivity.
  - eexists; eexists; reflexivity.
Qed.

(** The frame loop ends in an exception only in push-up mode, and only at
    a pose that passes the visibility gate while one of the ten key joints
    is missing: in the squat mode and the two hand modes every run
    completes, and so does a push-up run over poses that are complete or
    below the gate. *)
Theorem runResults_completes (excType : ExerciseType)
  (tpl : option PushupTemplate) (results : list PoseResult) :
  (excType = PUSHUPS -> posesComplete results) ->
  forall rt, exists rt' evs,
    runResults excType tpl rt results = Normal (rt', evs).
Proof.
  induction results as [| r rest IH]; intros Hok rt.
  - eexists; eexists; reflexivity.
  - cbn [runResults].
    assert (Hhead : excType = PUSHUPS ->
                    match result_landmarks r with
                    | [] => True
                    | firstPose :: _ =>
                      avgVisOf (pushupKeyJoints firstPose) < MIN_VIS_BODY
                      \/ ~ In None (pushupKeyJoints firstPose)
                    end).
    { intros He. specialize (Hok He). unfold posesComplete, processedPoses in Hok.
      cbn [flat_map] in Hok.
      destruct (result_landmarks r); [exact I |].
      cbn [app] in Hok. inversion Hok; subst. assumption. }
    assert (Htail : excType = PUSHUPS -> posesComplete rest).
    { intros He. specialize (Hok He). unfold posesComplete, processedPoses in *.
      cbn [flat_map] in Hok. apply Forall_app in Hok. apply Hok. }
    destruct (onResults_no_throw excType tpl (result_env r) rt
                (result_landmarks r) (result_time r) Hhead)
      as (rt1 & ev1 & ->).
    destruct (IH Htail rt1) as (rt2 & ev2 & ->).
    eexists; eexists; reflexivity.
Qed.

Lemma runResults_completes_witness :
  exists rt' evs,
    runResults PUSHUPS None initialRuntime [blindResult] = Normal (rt', evs).
Proof.
  apply (runResults_completes PUSHUPS None [blindResult]).
  intros _. unfold posesComplete, processedPoses, blindResult. cbn.
  constructor; [| constructor]. left.
  unfold avgVisOf, MIN_VIS_BODY. simpl. lra.
Defined.





End FrameCallback.

(** ** The listeners of the games *)

Section GameListeners.

Lemma handleHandYUpdate_handYNorm (wristY : R) :
  handleHandYUpdate (handYNorm wristY) = clamp 0 1 wristY.
Proof.
  unfold handleHandYUpdate. rewrite handYNorm_clamp.
  pose proof (clamp_bounds 0 1 wristY ltac:(lra)) as [Hlo Hhi].
  replace (1 - (1 - clamp 0 1 wristY)) with (clamp 0 1 wristY) by ring.
  unfold Math_max, Math_min.
  rewrite Rmin_right by assumption. rewrite Rmax_right by assumption.
  reflexivity.
Qed.

(** End to end, the paddle of the breakout game follows the raw height of
    the tracked wrist.  In a browser, a frame whose wrist has visibility
    0.4 or more makes [trackHandY] fire, and the listener undoes the
    inversion: [paddlePosition] becomes [clamp(wrist.y, 0, 1)] (wrist at
    the top of the image, paddle at the top).  A frame without that wrist,
    or with its visibility below 0.4, or without [window], fires nothing
    and leaves the paddle where it was. *)
Theorem breakout_paddle_follows_wrist (env : Env) (landmarks : list Landmark)
  (hand : Hand) (paddlePosition : R) :
  let paddle' :=
    fold_left breakoutListen (trackHandY env landmarks hand) paddlePosition in
  (forall wrist,
     at_index landmarks (wristIndexOf hand) = Some wrist ->
     MIN_VIS_BODY <= orElse (visibility wrist) 0 ->
     hasWindow env = true ->
     paddle' = clamp 0 1 (y wrist) /\ 0 <= paddle' <= 1)
  /\ (at_index landmarks (wristIndexOf hand) = None
      \/ (exists wrist,
            at_index landmarks (wristIndexOf hand) = Some wrist
            /\ orElse (visibility wrist) 0 < MIN_VIS_BODY)
      \/ hasWindow env = false ->
      trackHandY env landmarks hand = [] /\ paddle' = paddlePosition).
Proof.
  cbv zeta. unfold trackHandY. split.
  - intros wrist Hw Hvis Hwin. rewrite Hw.
    destruct (ltb _ _) eqn:Hlt; [apply ltb_true_iff in Hlt; lra |].
    unfold dispatch. rewrite Hwin. cbn [fold_left breakoutListen].
    rewrite handleHandYUpdate_handYNorm.
    split; [reflexivity | apply clamp_bounds; lra].
  - intros [Hnone | [(wrist & Hw & Hvis) | Hwin]].
    + rewrite Hnone. split; reflexivity.
    + rewrite Hw. apply ltb_true_iff in Hvis. rewrite Hvis.
      split; reflexivity.
    + destruct (at_index landmarks (wristIndexOf hand)) as [wrist |];
        [| split; reflexivity].
      destruct (ltb _ _); [split; reflexivity |].
      unfold dispatch. rewrite Hwin. split; reflexivity.
Qed.

Lemma last_default_irrelevant {A : Type} (l : list A) :
  forall c d : A, last l c = last (c :: l) d.
Proof.
  induction l as [| a l IH]; intros c d; [reflexivity |].
  change (last (c :: a :: l) d) with (last (a :: l) d).
  rewrite <- (IH a c), <- (IH a d). reflexivity.
Qed.

Lemma dinoListen_count (evs : list Event) :
  forall (g : DinoGame) (counts : list nat),
    map eventRepCount evs = map Some counts ->
    pushupCount (fold_left dinoListen evs g) = last counts (pushupCount g)
    /\ isGameOver (fold_left dinoListen evs g) = isGameOver g
    /\ jumpForce (fold_left dinoListen evs g) = jumpForce g.
Proof.
  induction evs as [| ev rest IH]; intros g counts Hmap.
  - destruct counts; [| discriminate]. simpl. auto.
  - destruct counts as [| c more]; [discriminate |].
    cbn [map] in Hmap. injection Hmap as Hc Hrest.
    cbn [fold_left].
    destruct (IH (dinoListen g ev) more Hrest) as (H1 & H2 & H3).
    rewrite H1, H2, H3.
    assert (Hg : pushupCount (dinoListen g ev) = c
                 /\ isGameOver (dinoListen g ev) = isGameOver g
                 /\ jumpForce (dinoListen g ev) = jumpForce g).
    { destruct ev; cbn in Hc; try discriminate; injection Hc as ->;
        unfold dinoListen, handleRepCompleted; cbn;
        destruct (negb (jumping g) && negb (isGameOver g)); cbn; auto. }
    destruct Hg as (G1 & G2 & G3). rewrite G1, G2, G3.
    split; [| split; reflexivity].
    apply last_default_irrelevant.
Qed.

(** End to end, the "Reps" counter of the dino game shows the length of
    the detector's log: after the events of a run of push-up frames (in a
    browser) have reached the game, [pushupCount] is the number of logged
    repetitions if the run fired an event, and is unchanged otherwise; the
    listeners never end or restart the game. *)
Theorem dino_counter_shows_log (tpl : option PushupTemplate) (s : PageState)
  (frames : list (Env * FrameFeatures)) (g : DinoGame) :
  Forall (fun ef => hasWindow (fst ef) = true) frames ->
  let s' := fst (runPushups tpl s frames) in
  let evs := snd (runPushups tpl s frames) in
  let g' := fold_left dinoListen evs g in
  pushupCount g'
  = (if (length evs =? 0)%nat then pushupCount g
     else length (completedReps s'))
  /\ isGameOver g' = isGameOver g.
Proof.
  intros Hwin. cbv zeta.
  destruct (runPushups_log_and_events tpl frames s Hwin)
    as (added & Hlog & Hcnt & Hsc).
  destruct (dinoListen_count (snd (runPushups tpl s frames)) g _ Hcnt)
    as (H1 & H2 & _).
  split; [| exact H2].
  rewrite H1.
  assert (Hlen : length (snd (runPushups tpl s frames)) = length added).
  { apply (f_equal (@length _)) in Hcnt.
    rewrite !length_map, length_seq in Hcnt. exact Hcnt. }
  rewrite Hlen, Hlog, length_app.
  destruct added as [| r more] using rev_ind; [reflexivity |].
  rewrite length_app. cbn [length].
  rewrite seq_app. cbn [seq]. rewrite last_last.
  destruct (length more + 1 =? 0)%nat eqn:Hz;
    [apply Nat.eqb_eq in Hz; lia | lia].
Qed.

Lemma dino_counter_shows_log_witness :
  pushupCount
    (fold_left dinoListen (snd (runPushups None initialPage fullPushup))
               (mkDinoGame 0 false (-400) false 0))
  = (if (length (snd (runPushups None initialPage fullPushup)) =? 0)%nat
     then 0%nat
     else length (completedReps (fst (runPushups None initialPage fullPushup))))
  /\ isGameOver
       (fold_left dinoListen (snd (runPushups None initialPage fullPushup))
                  (mkDinoGame 0 false (-400) false 0))
     = false.
Proof.
  apply (dino_counter_shows_log None initialPage fullPushup
           (mkDinoGame 0 false (-400) false 0)).
  unfold fullPushup, at_ms. repeat constructor.
Defined.

End GameListeners.

(** ** The session history *)

Section SessionHistory.

Import WorkoutStorage.

Lemma getSessions_saveSession (store : StoredItem) (session : SessionInput)
  (uuid : String.string) (now : Z) :
  getSessions true (saveSession true store session uuid now)
  = savedSession session uuid now :: firstn 49 (getSessions true store).
Proof. reflexivity. Qed.

Lemma getSessions_call_length (store : StoredItem) (c : Call) :
  (length (getSessions true store) <= 50 ->
   length (getSessions true (call true store c)) <= 50)%nat.
Proof.
  intros Hlen. destruct c as [session uuid now | id' |].
  - cbn [call]. rewrite getSessions_saveSession. cbn [length].
    pose proof (firstn_le_length 49 (getSessions true store)).
    rewrite length_firstn. lia.
  - change (getSessions true (call true store (DeleteSession id')))
      with (filter (fun s => negb (String.eqb (id s) id'))
                   (getSessions true store)).
    pose proof (filter_length_le
                  (fun s => negb (String.eqb (id s) id'))
                  (getSessions true store)) as H.
    lia.
  - cbn. lia.
Qed.

Lemma calls_without_window (cs : list Call) (store : StoredItem) :
  calls false store cs = store.
Proof.
  unfold calls. induction cs as [| c rest IH]; [reflexivity |].
  cbn [fold_left]. destruct c; cbn [call]; exact IH.
Qed.

(** The stored history never holds more than 50 sessions: every
    [saveSession] leaves at most 50, whatever was stored before, and a
    history of at most 50 sessions stays so under any sequence of
    [saveSession], [deleteSession] and [clearAll]. *)
Theorem history_at_most_50 (window : bool) (store : StoredItem) :
  (forall session uuid now,
     (length (getSessions window (saveSession window store session uuid now))
      <= 50)%nat)
  /\ ((length (getSessions window store) <= 50)%nat ->
      forall cs,
        (length (getSessions window (calls window store cs)) <= 50)%nat).
Proof.
  destruct window.
  - split.
    + intros session uuid now. rewrite getSessions_saveSession. cbn [length].
      rewrite length_firstn. lia.
    + intros Hlen cs. revert store Hlen. unfold calls.
      induction cs as [| c rest IH]; intros store Hlen; [exact Hlen |].
      cbn [fold_left]. apply IH. apply getSessions_call_length. exact Hlen.
  - split; intros; cbn; lia.
Qed.

Lemma history_at_most_50_witness :
  (length
     (getSessions true
        (calls true Unreadable
           [SaveSession pushupSession "a"%string 1%Z; DeleteSession "b"%string;
            SaveSession pushupSession "c"%string 2%Z])) <= 50)%nat.
Proof.
  apply (proj2 (history_at_most_50 true Unreadable)). simpl. lia.
Defined.

(** Saving and reading back: in a browser [saveSession] puts the new
    session (the input with the fresh id and the current date) in front of
    the 49 newest sessions read before, so a stored history of 50 loses
    its oldest session, and an absent or unreadable item is replaced by
    the one-session history; [getSessionsByExercise] for the session's
    exercise then returns it first. *)
Theorem saveSession_read_back (store : StoredItem) (session : SessionInput)
  (uuid : String.string) (now : Z) :
  let store' := saveSession true store session uuid now in
  getSessions true store'
  = savedSession session uuid now :: firstn 49 (getSessions true store)
  /\ (store = NoItem \/ store = Unreadable ->
      getSessions true store' = [savedSession session uuid now])
  /\ hd_error (getSessionsByExercise true store' (in_exerciseId session))
     = Some (savedSession session uuid now)
  /\ forall e,
       String.eqb (in_exerciseId session) e = false ->
       getSessionsByExercise true store' e
       = filter (fun s => String.eqb (exerciseId s) e)
                (firstn 49 (getSessions true store)).
Proof.
  cbv zeta. split; [apply getSessions_saveSession |].
  split; [intros [-> | ->]; reflexivity |].
  split.
  - unfold getSessionsByExercise. rewrite getSessions_saveSession.
    cbn [filter savedSession exerciseId]. rewrite String.eqb_refl.
    reflexivity.
  - intros e He. unfold getSessionsByExercise.
    rewrite getSessions_saveSession.
    cbn [filter savedSession exerciseId]. rewrite He. reflexivity.
Qed.

Lemma saveSession_read_back_witness :
  getSessions true (saveSession true Unreadable pushupSession "a"%string 1%Z)
  = [savedSession pushupSession "a"%string 1%Z].
Proof.
  apply (proj1 (proj2 (saveSession_read_back Unreadable pushupSession "a"%string
                         1%Z))).
  right. reflexivity.
Defined.

Lemma filter_fresh_id (id' : String.string) (sessions : list WorkoutSession) :
  Forall (fun s => id s <> id') sessions ->
  filter (fun s => negb (String.eqb (id s) id')) sessions = sessions.
Proof.
  induction 1 as [| s rest Hs _ IH]; [reflexivity |].
  cbn [filter]. apply String.eqb_neq in Hs. rewrite Hs. cbn [negb].
  rewrite IH. reflexivity.
Qed.

Lemma Forall_firstn {A : Type} (P : A -> Prop) (n : nat) (l : list A) :
  Forall P l -> Forall P (firstn n l).
Proof.
  intros H. revert n. induction H as [| a l Ha _ IH]; intros [| n];
    cbn [firstn]; constructor; auto.
Qed.

(** Saving a session and deleting it again (by its id, which no stored
    session has) does not always restore the history: what is left are the
    49 newest sessions read before, so the history is restored exactly
    when it had fewer than 50 sessions, and a full history has lost its
    oldest one. *)
Theorem save_then_delete (store : StoredItem) (session : SessionInput)
  (uuid : String.string) (now : Z) :
  Forall (fun s => id s <> uuid) (getSessions true store) ->
  let store' :=
    deleteSession true (saveSession true store session uuid now) uuid in
  getSessions true store' = firstn 49 (getSessions true store)
  /\ ((length (getSessions true store) < 50)%nat ->
      getSessions true store' = getSessions true store)
  /\ ((length (getSessions true store) = 50)%nat ->
      getSessions true store' = removelast (getSessions true store)).
Proof.
  intros Hfresh. cbv zeta.
  assert (Hread : getSessions true
                    (deleteSession true
                       (saveSession true store session uuid now) uuid)
                  = firstn 49 (getSessions true store)).
  { unfold deleteSession. rewrite getSessions_saveSession.
    cbn [filter savedSession id getSessions negb].
    rewrite String.eqb_refl. cbn [negb].
    apply filter_fresh_id. apply Forall_firstn. exact Hfresh. }
  rewrite Hread. split; [reflexivity |]. split.
  - intros Hlen. apply firstn_all2. lia.
  - intros Hlen. rewrite removelast_firstn_len, Hlen. reflexivity.
Qed.

Lemma save_then_delete_witness :
  getSessions true
    (deleteSession true
       (saveSession true (History [savedSession pushupSession "a"%string 1%Z])
          pushupSession "b"%string 2%Z) "b"%string)
  = getSessions true (History [savedSession pushupSession "a"%string 1%Z]).
Proof.
  apply (proj1 (proj2 (save_then_delete
                         (History [savedSession pushupSession "a"%string 1%Z])
                         pushupSession "b"%string 2%Z
                         ltac:(repeat constructor; cbn; discriminate)))).
  simpl. lia.
Defined.

(** In a browser [deleteSession] removes every session that has the given
    id and no other, keeping the order of the rest; deleting an id that no
    session has rewrites the same history, and deleting twice is deleting
    once. *)
Theorem deleteSession_removes_id (store : StoredItem) (id' : String.string) :
  let sessions := getSessions true store in
  let sessions' := getSessions true (deleteSession true store id') in
  (forall s, In s sessions' <-> In s sessions /\ id s <> id')
  /\ sessions' = filter (fun s => negb (String.eqb (id s) id')) sessions
  /\ (Forall (fun s => id s <> id') sessions -> sessions' = sessions)
  /\ deleteSession true (deleteSession true store id') id'
     = deleteSession true store id'.
Proof.
  cbv zeta.
  change (getSessions true (deleteSession true store id'))
    with (filter (fun s => negb (String.eqb (id s) id'))
                 (getSessions true store)).
  split; [| split; [reflexivity | split]].
  - intros s. rewrite filter_In, negb_true_iff, String.eqb_neq. tauto.
  - apply filter_fresh_id.
  - change (History
              (filter (fun s => negb (String.eqb (id s) id'))
                 (filter (fun s => negb (String.eqb (id s) id'))
                    (getSessions true store)))
            = History
                (filter (fun s => negb (String.eqb (id s) id'))
                   (getSessions true store))).
    f_equal. apply filter_fresh_id. apply Forall_forall. intros s Hs.
    apply filter_In in Hs. destruct Hs as [_ Hs].
    apply negb_true_iff, String.eqb_neq in Hs. exact Hs.
Qed.

Lemma deleteSession_removes_id_witness :
  getSessions true
    (deleteSession true (History [savedSession pushupSession "a"%string 1%Z]) "b"%string)
  = getSessions true (History [savedSession pushupSession "a"%string 1%Z]).
Proof.
  apply (proj1 (proj2 (proj2 (deleteSession_removes_id
                                (History [savedSession pushupSession "a"%string 1%Z])
                                "b"%string)))).
  repeat constructor. cbn. discriminate.
Defined.

(** Where [window] is undefined (rendering on the server) the class is
    inert: every read returns the empty list, whatever is stored, and no
    sequence of calls changes what is stored. *)
Theorem storage_inert_without_window (store : StoredItem) (cs : list Call) :
  calls false store cs = store
  /\ getSessions false (calls false store cs) = []
  /\ forall e, getSessionsByExercise false (calls false store cs) e = [].
Proof.
  rewrite calls_without_window. repeat split.
Qed.

End SessionHistory.

(** ** Scoring against a template *)

Section TemplateScore.

Lemma templateStep_fold_within (tpl : PushupTemplate)
  (repPhases : list Phase) (k : R) (idxs : list nat) :
  phasesWithin tpl repPhases k ->
  (forall i, In i idxs -> (i < phaseCount tpl)%nat) ->
  forall (z : R) (n : nat),
  exists totalZ,
    fold_left (templateStep tpl repPhases) idxs (Val z, n)
    = (Val totalZ, (n + 2 * length idxs)%nat)
    /\ totalZ <= z + k * INR (2 * length idxs).
Proof.
  intros Hwithin.
  induction idxs as [| i rest IH]; intros Hidx z n.
  - exists z. simpl. split; [f_equal; lia | lra].
  - destruct (Hwithin i (Hidx i (or_introl eq_refl)))
      as (mE & mH & HmE & HmH & HzE & HzH).
    cbn [fold_left]. unfold templateStep at 2. cbn [fst snd].
    rewrite HmE, HmH. cbn [zScore addN].
    match goal with
    | |- context [fold_left _ rest (Val ?z', ?n')] =>
      destruct (IH (fun j Hj => Hidx j (or_intror Hj)) z' n')
        as (totalZ & Htot & Hle)
    end.
    exists totalZ. rewrite Htot. split; [f_equal; simpl length; lia |].
    replace (2 * length (i :: rest))%nat with (2 * length rest + 2)%nat
      by (simpl length; lia).
    rewrite plus_INR. change (INR 2) with 2. lra.
Qed.

Lemma nearest_singleton (targetT : JS.number) (f0 : RepFeature) :
  nearest targetT f0 [f0] = f0.
Proof.
  destruct targetT as [| tgt]; [reflexivity |].
  unfold nearest. cbn [fold_left snd]. destruct (ltb _ _); reflexivity.
Qed.

(** With a loaded template of at least one phase, an empty buffer scores
    0; and a buffer whose resampled phases all lie within [k] deviations
    of the template's means (a deviation of 0 or none counting as 1)
    scores at least [100 - 10 k]: a repetition that reproduces the means
    scores 100. *)
Theorem scoreTemplate_lower_bound (tpl : PushupTemplate)
  (buffer : list RepFeature) (k : R) :
  (1 <= phaseCount tpl)%nat ->
  scoreRep (Some tpl) [] = Val 0
  /\ (buffer <> [] -> 0 <= k ->
      phasesWithin tpl (resampleRep buffer (phaseCount tpl)) k ->
      exists sc,
        scoreRep (Some tpl) buffer = Val sc
        /\ 100 - 10 * k <= sc <= 100
        /\ (k = 0 -> sc = 100)).
Proof.
  intros Hpos. split.
  - cbn [scoreRep]. unfold scoreTemplate. cbn [resampleRep length].
    destruct (phaseCount tpl) as [| n]; [lia | reflexivity].
  - intros Hne Hk Hwithin. cbn [scoreRep]. unfold scoreTemplate.
    assert (Hlen : length (resampleRep buffer (phaseCount tpl))
                   = phaseCount tpl).
    { destruct buffer as [| f0 more]; [congruence |].
      unfold resampleRep. rewrite length_map, length_seq. reflexivity. }
    rewrite Hlen, Nat.eqb_refl. cbn [negb].
    unfold templateLoop.
    destruct (templateStep_fold_within tpl _ k (seq 0 (phaseCount tpl))
                Hwithin) with (z := 0) (n := O) as (totalZ & Htot & Hle).
    { intros i Hi. apply in_seq in Hi. lia. }
    rewrite length_seq in Htot, Hle. rewrite Htot. unfold avgZOf.
    change (0 + 2 * phaseCount tpl)%nat with (2 * phaseCount tpl)%nat.
    destruct (2 * phaseCount tpl =? 0)%nat eqn:Hz;
      [apply Nat.eqb_eq in Hz; lia |].
    cbn [clampN]. eexists. split; [reflexivity |].
    set (c := INR (2 * phaseCount tpl)) in *.
    assert (Hcount : 0 < c) by (apply lt_0_INR; lia).
    assert (Havg : totalZ / c <= k).
    { unfold Rdiv. apply Rmult_le_reg_r with c; [exact Hcount |].
      rewrite Rmult_assoc, Rinv_l by lra. lra. }
    assert (Hlow : 100 - 10 * k <= clamp 0 100 (100 - 10 * (totalZ / c))).
    { apply clamp_ge; lra. }
    pose proof (clamp_bounds 0 100 (100 - 10 * (totalZ / c)) ltac:(lra))
      as Hb.
    split; [lra |]. intros ->. lra.
Qed.

Lemma scoreTemplate_lower_bound_witness :
  exists sc,
    scoreRep (Some topTemplate) [flatFrame 0 170 175] = Val sc
    /\ 100 - 10 * 0 <= sc <= 100
    /\ (0 = 0 -> sc = 100).
Proof.
  apply (proj2 (scoreTemplate_lower_bound topTemplate [flatFrame 0 170 175] 0
                  ltac:(simpl; lia)));
    [discriminate | lra |].
  intros i Hi. exists 170, 175.
  unfold resampleRep. cbn [phaseCount topTemplate seq map].
  rewrite !nearest_singleton.
  cbn [phaseCount topTemplate] in Hi.
  destruct i as [| [| i]]; [| | lia];
    cbn [nth nth_error mean std tplElbow tplHip topTemplate flatFrame
         elbowAngle hipAngle orElse elbow hip stdOr1];
    (split; [reflexivity | split; [reflexivity |]]);
    unfold Math_abs;
    replace (170 - 170) with 0 by ring; replace (175 - 175) with 0 by ring;
    rewrite Rabs_R0; split; lra.
Defined.

End TemplateScore.
